(** * The layers contract of import-linter

    A shallow embedding of [src/importlinter/contracts/layers.py]: the
    [Layer] value, [LayerField.parse], and the [LayersContract] methods
    ([check], [_pop_imports_outside_layer_by_module], [_squash_package],
    [_remove_package], [_determine_specific_chains], [_convert_chains],
    [_alt_check], [render_broken_contract], [old_render_broken_contract],
    [_validate_containers], [_generate_module_permutations],
    [_module_from_layer], [_build_layer_chain_data]).

    Python exceptions are values of [exn]; a method that can raise returns a
    [result].  A method that mutates the caller's graph returns the graph it
    leaves behind together with its result, also when it raises.  The
    progress messages and the debugger breakpoint of [check] leave no trace
    in the data and are not modelled; the renderers return the sequence of
    their output calls. *)

From Stdlib Require Import List String Ascii Bool Arith ZArith Lia DecimalString.
Import ListNotations.
Open Scope string_scope.
Open Scope list_scope.

(** ** Exceptions and results *)

Inductive exn : Type :=
| ValueError (message : string)
| IndexError
| TypeError
| AttributeError
| NodeNotFound.

Inductive result (A : Type) : Type :=
| Ok (value : A)
| Raise (e : exn).
Arguments Ok {A} value.
Arguments Raise {A} e.

Definition bind {A B : Type} (r : result A) (k : A -> result B) : result B :=
  match r with
  | Ok a => k a
  | Raise e => Raise e
  end.

Notation "x <- r ;; k" := (bind r (fun x => k))
  (at level 61, r at next level, right associativity).

(** [for x in xs: acc = body(acc, x)], stopping at the first exception. *)
Fixpoint for_each {A S : Type} (body : S -> A -> result S) (xs : list A) (acc : S)
  : result S :=
  match xs with
  | [] => Ok acc
  | x :: rest => acc' <- body acc x ;; for_each body rest acc'
  end.

(** A list comprehension whose element expression can raise. *)
Fixpoint map_result {A B : Type} (f : A -> result B) (xs : list A) : result (list B) :=
  match xs with
  | [] => Ok []
  | x :: rest => y <- f x ;; ys <- map_result f rest ;; Ok (y :: ys)
  end.

(** ** Python strings and sequences *)

Definition startswith (s pre : string) : bool := String.prefix pre s.

Fixpoint endswith_char (s : string) (c : ascii) : bool :=
  match s with
  | EmptyString => false
  | String a EmptyString => Ascii.eqb a c
  | String _ rest => endswith_char rest c
  end.

(** [s[1:-1]] *)
Definition slice_1_m1 (s : string) : string :=
  String.substring 1 (String.length s - 2) s.

(** [sep.join(parts)] *)
Fixpoint join (sep : string) (parts : list string) : string :=
  match parts with
  | [] => ""
  | [p] => p
  | p :: rest => (p ++ sep ++ join sep rest)%string
  end.

Definition mem (x : string) (xs : list string) : bool :=
  existsb (String.eqb x) xs.

(** Adding to a Python [set], kept here in insertion order. *)
Definition set_add (x : string) (xs : list string) : list string :=
  if mem x xs then xs else xs ++ [x].

(** [xs[1:-1]] on a list *)
Definition middle {A : Type} (xs : list A) : list A :=
  removelast (tl xs).

(** [xs[i]] *)
Definition index {A : Type} (xs : list A) (i : nat) : result A :=
  match nth_error xs i with
  | Some x => Ok x
  | None => Raise IndexError
  end.

(** [xs[-1]] and [xs[-2]] *)
Definition index_from_end {A : Type} (xs : list A) (k : nat) : result A :=
  if Nat.leb k (List.length xs) then
    if Nat.eqb k 0 then Raise IndexError else index xs (List.length xs - k)
  else Raise IndexError.

(** ** Layer and LayerField *)

Record Layer : Type := mkLayer { name : string; is_optional : bool }.

Module LayerField.

(** [fields.StringField().parse] is not part of this file; on a string it
    hands the string back, which is the only input considered here. *)
Definition parse (raw_string : string) : Layer :=
  if startswith raw_string "(" && endswith_char raw_string ")"
  then mkLayer (slice_1_m1 raw_string) true
  else mkLayer raw_string false.

End LayerField.

(** ** Module names

    Modelled from the spec: [Module] of [importlinter.domain.imports] is not
    part of this file.  A [Module] is a value object around a dotted name,
    with "no identity beyond the name string"; between two [Module]s,
    [is_descendant_of other] is true iff the name equals the name of
    [other] or starts with it followed by a dot.  The function below is
    that relation on the two names.  A [Module] is no [str]: where the
    source hands a [str] (or a list) to [is_descendant_of], the method finds
    no name on it, and where it hands a [Module] to the graph, whose nodes
    are names, the graph knows no such node. *)

Definition is_descendant_of (m other : string) : bool :=
  String.eqb m other || startswith m (other ++ ".")%string.

Fixpoint first_component (s : string) : string :=
  match s with
  | EmptyString => EmptyString
  | String c rest =>
      if Ascii.eqb c "."%char then EmptyString else String c (first_component rest)
  end.

(** Modelled from the spec: [Module.root_package_name] is not part of this
    file; a container has to be "a project root package or a descendant of
    one", and the root package of a dotted name is its first component. *)
Definition root_package_name (m : string) : string := first_component m.

(** ** The import graph

    Modelled from the spec: [ImportGraph] of
    [importlinter.domain.ports.graph] is not part of this file.  The graph
    is a directed graph whose nodes are module names, each with a [squashed]
    flag, and whose edges carry the provenance records of the import.  The
    operations follow section 4.1 of the specification; the sets they return
    are kept as duplicate-free lists in graph order. *)

Record Provenance : Type := mkProvenance { line_number : Z; line_contents : string }.

Record Edge : Type := mkEdge {
  edge_importer : string;
  edge_imported : string;
  edge_details : list Provenance
}.

Record ImportGraph : Type := mkGraph {
  nodes : list (string * bool);
  edges : list Edge
}.

Definition modules (g : ImportGraph) : list string := map fst (nodes g).

Definition edge_is (a b : string) (e : Edge) : bool :=
  String.eqb (edge_importer e) a && String.eqb (edge_imported e) b.

Definition touches (m : string) (e : Edge) : bool :=
  String.eqb (edge_importer e) m || String.eqb (edge_imported e) m.

Definition has_import (g : ImportGraph) (a b : string) : bool :=
  existsb (edge_is a b) (edges g).

Definition add_module (m : string) (is_squashed : bool) (g : ImportGraph) : ImportGraph :=
  if mem m (modules g) then g
  else mkGraph (nodes g ++ [(m, is_squashed)]) (edges g).

(** Removal cascades to every edge that has the node at either end. *)
Definition remove_module (m : string) (g : ImportGraph) : ImportGraph :=
  mkGraph (filter (fun n => negb (String.eqb (fst n) m)) (nodes g))
          (filter (fun e => negb (touches m e)) (edges g)).

(** What a caller hands to [remove_module]: the name of a module, or a
    [Module] object made from a name. *)
Inductive module_ref : Type :=
| by_name (n : string)
| by_object (n : string).

(** No node of the graph is a [Module] object, so removing one removes
    nothing (an unknown module is no error). *)
Definition remove_module_ref (r : module_ref) (g : ImportGraph) : ImportGraph :=
  match r with
  | by_name n => remove_module n g
  | by_object _ => g
  end.

(** [add_import(importer, imported, line_number?)]: appends to the edge's
    provenance, or creates the edge (and its end points). *)
Definition add_import (a b : string) (p : option Provenance) (g : ImportGraph)
  : ImportGraph :=
  let extra := match p with Some x => [x] | None => [] end in
  let g' := add_module b false (add_module a false g) in
  if has_import g a b then
    mkGraph (nodes g')
            (map (fun e => if edge_is a b e
                           then mkEdge a b (edge_details e ++ extra) else e)
                 (edges g'))
  else mkGraph (nodes g') (edges g' ++ [mkEdge a b extra]).

Definition remove_import (a b : string) (g : ImportGraph) : ImportGraph :=
  mkGraph (nodes g) (filter (fun e => negb (edge_is a b e)) (edges g)).

Definition get_import_details (g : ImportGraph) (a b : string) : list Provenance :=
  match find (edge_is a b) (edges g) with
  | Some e => edge_details e
  | None => []
  end.

Definition find_modules_directly_imported_by (g : ImportGraph) (m : string)
  : list string :=
  nodup string_dec
    (map edge_imported (filter (fun e => String.eqb (edge_importer e) m) (edges g))).

Definition find_modules_that_directly_import (g : ImportGraph) (m : string)
  : list string :=
  nodup string_dec
    (map edge_importer (filter (fun e => String.eqb (edge_imported e) m) (edges g))).

(** All nodes strictly under [m] in the dotted hierarchy. *)
Definition find_descendants (g : ImportGraph) (m : string) : list string :=
  filter (fun candidate => startswith candidate (m ++ ".")%string) (modules g).

(** Walks of exactly [k] imports from [src] to [tgt]. *)
Fixpoint walks (g : ImportGraph) (k : nat) (src tgt : string) : list (list string) :=
  match k with
  | O => if String.eqb src tgt then [[src]] else []
  | S k' =>
      flat_map (fun next => map (cons src) (walks g k' next tgt))
               (find_modules_directly_imported_by g src)
  end.

Fixpoint shortest_from (g : ImportGraph) (src tgt : string) (fuel k : nat)
  : list (list string) :=
  match fuel with
  | O => []
  | S fuel' =>
      match walks g k src tgt with
      | [] => shortest_from g src tgt fuel' (S k)
      | found => found
      end
  end.

(** Every path of minimum length; a shortest path visits no node twice, so
    its length is below the number of nodes. *)
Definition shortest_paths (g : ImportGraph) (src tgt : string) : list (list string) :=
  shortest_from g src tgt (S (List.length (nodes g))) 0.

Definition find_shortest_chains (g : ImportGraph) (a b : string) : list (list string) :=
  if mem a (modules g) && mem b (modules g) then shortest_paths g a b else [].

(** [networkx.all_shortest_paths] on the graph's digraph, consumed by
    [list(...)] under [except NetworkXNoPath]: a missing source raises
    [NodeNotFound], an unreachable or missing target gives no path. *)
Definition all_shortest_paths (g : ImportGraph) (source target : string)
  : result (list (list string)) :=
  if mem source (modules g) then Ok (shortest_paths g source target)
  else Raise NodeNotFound.

(** ** The ignore filter

    Modelled from the spec: [helpers.pop_imports] and [helpers.add_imports]
    are not part of this file.  [pop] captures the provenance of each listed
    edge and removes the edge; [restore] adds every captured record back. *)

Definition pop_imports (g : ImportGraph) (imports : list (string * string))
  : ImportGraph * list Edge :=
  fold_left
    (fun st i =>
       let '(a, b) := i in
       (remove_import a b (fst st), snd st ++ [mkEdge a b (get_import_details (fst st) a b)]))
    imports (g, []).

Definition add_imports (g : ImportGraph) (removed : list Edge) : ImportGraph :=
  fold_left
    (fun g0 e =>
       fold_left (fun g1 p => add_import (edge_importer e) (edge_imported e) (Some p) g1)
                 (edge_details e) g0)
    removed g.

(** ** Values of mixed shape

    [check] hands [_determine_specific_chains] whatever it collected, and
    the elements of a chain are then either module names or nested lists.  A
    graph query is keyed by a module name; a list is unhashable there and
    the query raises [TypeError].  In [get_import_details] the key is the
    importer; the imported module is only compared with the details found,
    and a list there matches none. *)

#[local] Unset Elimination Schemes.
Inductive pyval : Type :=
| PStr (s : string)
| PList (items : list pyval).
#[local] Set Elimination Schemes.

Definition as_module_name (v : pyval) : result string :=
  match v with
  | PStr s => Ok s
  | PList _ => Raise TypeError
  end.

(** [graph.get_import_details(importer=a, imported=b)] for an importer
    that is a name. *)
Definition get_import_details_of (g : ImportGraph) (a : string) (b : pyval)
  : list Provenance :=
  match b with
  | PStr s => get_import_details g a s
  | PList _ => []
  end.

(** [Module(m).is_descendant_of(package)] where [package] is a node of a
    coarse chain, a [str] or a list: the method reads the name of its
    argument, and neither has one. *)
Definition is_descendant_of_node (m : string) (package : pyval) : result bool :=
  Raise AttributeError.

(** ** The contract *)

Record LayersContract : Type := mkContract {
  layers : list Layer;
  containers : option (list string);
  ignore_imports : option (list (string * string));
  root_packages : list string     (* session_options["root_packages"] *)
}.

Record ContractCheck (M : Type) : Type := mkCheck {
  kept : bool;
  invalid_chains : M
}.
Arguments mkCheck {M} kept invalid_chains.
Arguments kept {M} c.
Arguments invalid_chains {M} c.

(** One record of a reported chain, with module names in both places. *)
Record ImportRecord : Type := mkRecord {
  importer : string;
  imported : string;
  line_numbers : list Z
}.

(** One record as [_convert_chains] builds it: the importer has passed the
    lookup and is a name, the imported value is whatever the chain holds. *)
Record ConvertedRecord : Type := mkConverted {
  converted_importer : string;
  converted_imported : pyval;
  converted_line_numbers : list Z
}.

(** The dictionary built by [_build_layer_chain_data]. *)
Record LayerChainData : Type := mkLayerChainData {
  higher_layer : string;
  lower_layer : string;
  chains : list (list ImportRecord)
}.

(** [x if x else []] and [x or [None]] treat [None] and the empty list alike. *)
Definition or_empty {A : Type} (xs : option (list A)) : list A :=
  match xs with
  | Some l => l
  | None => []
  end.

Definition truthy (s : string) : bool := negb (String.eqb s "").

Definition enumerate {A : Type} (xs : list A) : list (nat * A) :=
  combine (seq 0 (List.length xs)) xs.

(** [[(chain[i], chain[i + 1]) for i in range(len(chain) - 1)]] *)
Definition consecutive_pairs {A : Type} (chain : list A) : list (A * A) :=
  combine chain (tl chain).

(** ** Terminal output

    [importlinter.application.output] is not part of this file; what the
    renderers do with it is the sequence of their calls. *)

Inductive output_event : Type :=
| print (text : string)
| print_error (text : string) (bold : bool)
| indent_cursor
| new_line.

(** [f"{n}"] for an integer. *)
Definition str_of_int (n : Z) : string := NilZero.string_of_int (Z.to_int n).

(** A Python [dict] with string keys, in insertion order; assigning to a
    key that is present replaces its value in place. *)
Fixpoint dict_set {V : Type} (k : string) (v : V) (d : list (string * V))
  : list (string * V) :=
  match d with
  | [] => [(k, v)]
  | (k', v') :: rest =>
      if String.eqb k' k then (k, v) :: rest else (k', v') :: dict_set k v rest
  end.

Fixpoint dict_get {V : Type} (k : string) (d : list (string * V)) : option V :=
  match d with
  | [] => None
  | (k', v') :: rest => if String.eqb k' k then Some v' else dict_get k rest
  end.

Module LayersContract.

Definition _module_from_layer (layer : Layer) (container : option string) : string :=
  match container with
  | Some c => if truthy c then join "." [c; name layer] else name layer
  | None => name layer
  end.

Definition quasi_containers (self : LayersContract) : list (option string) :=
  match or_empty (containers self) with
  | [] => [None]
  | cs => map Some cs
  end.

Definition _generate_module_permutations (self : LayersContract) (graph : ImportGraph)
  : list (string * string) :=
  flat_map
    (fun container =>
       flat_map
         (fun ih =>
            let '(index, higher_layer) := ih in
            let higher_layer_module := _module_from_layer higher_layer container in
            if negb (mem higher_layer_module (modules graph)) then []
            else
              flat_map
                (fun lower_layer =>
                   let lower_layer_module := _module_from_layer lower_layer container in
                   if negb (mem lower_layer_module (modules graph)) then []
                   else [(higher_layer_module, lower_layer_module)])
                (skipn (index + 1) (layers self)))
         (enumerate (layers self)))
    (quasi_containers self).

(** The state of the first loop of [_squash_package]: the graph and the
    two sets. *)
Record squash_state : Type := mkSquash {
  sq_graph : ImportGraph;
  modules_that_import_package : list string;
  modules_imported_by_package : list string
}.

Definition squash_step (package_module : string) (st : squash_state)
           (package_module_name : string) : squash_state :=
  let graph := sq_graph st in
  let imported_by :=
    fold_left
      (fun acc module =>
         if negb (is_descendant_of module package_module) then set_add module acc else acc)
      (find_modules_directly_imported_by graph package_module_name)
      (modules_imported_by_package st) in
  let that_import :=
    fold_left
      (fun acc module =>
         if negb (is_descendant_of module package_module) then set_add module acc else acc)
      (find_modules_that_directly_import graph package_module_name)
      (modules_that_import_package st) in
  mkSquash (remove_module package_module_name graph) that_import imported_by.

(** [package_modules] is a set; the loop takes the package first and then
    its descendants in graph order. *)
Definition _squash_package (package_name : string) (graph : ImportGraph) : ImportGraph :=
  let package_module := package_name in
  let package_modules := package_name :: find_descendants graph package_name in
  let st := fold_left (squash_step package_module) package_modules
                      (mkSquash graph [] []) in
  let graph1 := add_module package_name true (sq_graph st) in
  let graph2 :=
    fold_left (fun g module => add_import module package_name None g)
              (modules_that_import_package st) graph1 in
  fold_left (fun g module => add_import package_name module None g)
            (modules_imported_by_package st) graph2.

(** [{Module(package_name)} | graph.find_descendants(package_name)]: the
    package as a [Module] object, and the names of its descendants. *)
Definition _remove_package (package_name : string) (graph : ImportGraph) : ImportGraph :=
  let package_modules :=
    by_object package_name :: map by_name (find_descendants graph package_name) in
  fold_left (fun g package_module_name => remove_module_ref package_module_name g)
            package_modules graph.

(** [self.containers[0]] *)
Definition containers_0 (self : LayersContract) : result string :=
  match containers self with
  | None => Raise TypeError
  | Some cs => index cs 0
  end.

(** Lines 77 to 84 of [check]: the copy, the two squashes, and the loop
    under the comment "Delete all other layers". *)
Definition prune (self : LayersContract) (graph : ImportGraph)
           (higher_layer_package lower_layer_package : string) : result ImportGraph :=
  let temp_graph := graph in
  let temp_graph := _squash_package lower_layer_package temp_graph in
  let temp_graph := _squash_package higher_layer_package temp_graph in
  for_each
    (fun tg layer =>
       c0 <- containers_0 self ;;
       let module := _module_from_layer layer (Some c0) in
       if negb (String.eqb module higher_layer_package
                || String.eqb module lower_layer_package)
       then Ok (_remove_package module tg)
       else Ok tg)
    (layers self) temp_graph.

Definition _convert_chains (invalid_chains : list (list pyval)) (graph : ImportGraph)
  : result (list (list ConvertedRecord)) :=
  map_result
    (fun chain =>
       map_result
         (fun ii =>
            a <- as_module_name (fst ii) ;;
            let import_details := get_import_details_of graph a (snd ii) in
            Ok (mkConverted a (snd ii) (map line_number import_details)))
         (consecutive_pairs chain))
    invalid_chains.

(** [[m for m in candidates if Module(m).is_descendant_of(package)]] *)
Definition descendants_among (candidates : list string) (package : pyval)
  : result (list string) :=
  flags <- map_result
             (fun m => b <- is_descendant_of_node m package ;; Ok (m, b))
             candidates ;;
  Ok (map fst (filter snd flags)).

(** The body of the loop of [_determine_specific_chains]. *)
Definition specific_chains_step (graph : ImportGraph) (invalid_chains : list (list pyval))
           (high_level_invalid_chain : list pyval) : result (list (list pyval)) :=
  if Nat.eqb (List.length high_level_invalid_chain) 2 then
    Ok (invalid_chains ++ [high_level_invalid_chain])
  else
    starting_package <- index high_level_invalid_chain 0 ;;
    second <- index high_level_invalid_chain 1 ;;
    second_name <- as_module_name second ;;
    let candidate_starting_modules :=
      find_modules_that_directly_import graph second_name in
    starting_modules <- descendants_among candidate_starting_modules starting_package ;;
    ending_package <- index_from_end high_level_invalid_chain 1 ;;
    before_last <- index_from_end high_level_invalid_chain 2 ;;
    before_last_name <- as_module_name before_last ;;
    let candidate_ending_modules :=
      find_modules_directly_imported_by graph before_last_name in
    ending_modules <- descendants_among candidate_ending_modules ending_package ;;
    invalid_chains1 <-
      for_each
        (fun acc starting_module =>
           e0 <- index ending_modules 0 ;;
           Ok (acc ++ [[PStr starting_module] ++ middle high_level_invalid_chain
                         ++ [PStr e0]]))
        starting_modules invalid_chains ;;
    for_each
      (fun acc ending_module =>
         s0 <- index starting_modules 0 ;;
         Ok (acc ++ [[PStr s0] ++ middle high_level_invalid_chain
                       ++ [PStr ending_module]]))
      (tl ending_modules) invalid_chains1.

Definition _determine_specific_chains (high_level_invalid_chains : list (list pyval))
           (graph : ImportGraph) : result (list (list ConvertedRecord)) :=
  invalid_chains <- for_each (specific_chains_step graph) high_level_invalid_chains [] ;;
  _convert_chains invalid_chains graph.

(** Each element appended to [high_level_invalid_chains] by [check] is the
    whole list of paths found for one pair. *)
Definition paths_as_chain (layer_chain_data : list (list string)) : list pyval :=
  map (fun path => PList (map PStr path)) layer_chain_data.

Definition check (self : LayersContract) (graph : ImportGraph)
  : ImportGraph * result (ContractCheck (list (list ConvertedRecord))) :=
  let direct_imports_to_ignore := or_empty (ignore_imports self) in
  let '(graph, removed_imports) := pop_imports graph direct_imports_to_ignore in
  (graph,
   st <- for_each
           (fun st pair =>
              let '(is_kept, high_level_invalid_chains) := st in
              let '(higher_layer_package, lower_layer_package) := pair in
              temp_graph <- prune self graph higher_layer_package lower_layer_package ;;
              layer_chain_data <-
                all_shortest_paths temp_graph lower_layer_package higher_layer_package ;;
              match layer_chain_data with
              | [] => Ok (is_kept, high_level_invalid_chains)
              | _ => Ok (false, high_level_invalid_chains ++ [layer_chain_data])
              end)
           (_generate_module_permutations self graph) (true, []) ;;
   let '(is_kept, high_level_invalid_chains) := st in
   invalid_chains <-
     _determine_specific_chains (map paths_as_chain high_level_invalid_chains) graph ;;
   Ok (mkCheck is_kept invalid_chains)).

Definition _check_all_layers_exist_for_container (self : LayersContract)
           (container : string) (graph : ImportGraph) : result unit :=
  for_each
    (fun _ layer =>
       if is_optional layer then Ok tt
       else
         let layer_module_name := join "." [container; name layer] in
         if negb (mem layer_module_name (modules graph)) then
           Raise (ValueError
                    ("Missing layer in container '" ++ container ++ "': module "
                       ++ layer_module_name ++ " does not exist.")%string)
         else Ok tt)
    (layers self) tt.

Definition _check_all_containerless_layers_exist (self : LayersContract)
           (graph : ImportGraph) : result unit :=
  for_each
    (fun _ layer =>
       if is_optional layer then Ok tt
       else if negb (mem (name layer) (modules graph)) then
         Raise (ValueError
                  ("Missing layer '" ++ name layer ++ "': module " ++ name layer
                     ++ " does not exist.")%string)
       else Ok tt)
    (layers self) tt.

Definition invalid_container_message (container : string)
           (root_package_names : list string) : string :=
  match root_package_names with
  | [root_package_name] =>
      ("Invalid container '" ++ container
         ++ "': a container must either be a subpackage of " ++ root_package_name
         ++ ", or " ++ root_package_name ++ " itself.")%string
  | _ =>
      let packages_string := join ", " root_package_names in
      ("Invalid container '" ++ container
         ++ "': a container must either be a root package, or a subpackage of one of them. "
         ++ "(The root packages are: " ++ packages_string ++ ".)")%string
  end.

Definition _validate_containers (self : LayersContract) (graph : ImportGraph)
  : result unit :=
  let root_package_names := root_packages self in
  match containers self with
  | None => Raise TypeError       (* [for container in None] *)
  | Some configured =>
      for_each
        (fun _ container =>
           if negb (mem (root_package_name container) root_package_names) then
             Raise (ValueError (invalid_container_message container root_package_names))
           else _check_all_layers_exist_for_container self container graph)
        configured tt
  end.

Definition _build_layer_chain_data (higher_layer_package lower_layer_package : string)
           (graph : ImportGraph) : LayerChainData :=
  let found := find_shortest_chains graph lower_layer_package higher_layer_package in
  mkLayerChainData higher_layer_package lower_layer_package
    (map (fun chain =>
            map (fun ii =>
                   mkRecord (fst ii) (snd ii)
                            (map line_number (get_import_details graph (fst ii) (snd ii))))
                (consecutive_pairs chain))
         found).

Definition _alt_check (self : LayersContract) (graph : ImportGraph)
  : ImportGraph * result (ContractCheck (list LayerChainData)) :=
  let direct_imports_to_ignore := or_empty (ignore_imports self) in
  let '(graph, removed_imports) := pop_imports graph direct_imports_to_ignore in
  let validated :=
    match or_empty (containers self) with
    | [] => _check_all_containerless_layers_exist self graph
    | _ => _validate_containers self graph
    end in
  match validated with
  | Raise e => (graph, Raise e)
  | Ok _ =>
      let st :=
        fold_left
          (fun st pair =>
             let '(is_kept, invalid_chains) := st in
             let '(higher_layer_package, lower_layer_package) := pair in
             let layer_chain_data :=
               _build_layer_chain_data higher_layer_package lower_layer_package graph in
             match chains layer_chain_data with
             | [] => (is_kept, invalid_chains)
             | _ => (false, invalid_chains ++ [layer_chain_data])
             end)
          (_generate_module_permutations self graph) (true, []) in
      (add_imports graph removed_imports, Ok (mkCheck (fst st) (snd st)))
  end.

(** [_pop_imports_outside_layer_by_module]: the graph it leaves and the
    dictionary it returns. *)
Definition _pop_imports_outside_layer_by_module (graph : ImportGraph)
           (layer_package : string) (module_names : list string)
  : ImportGraph * list (string * list Provenance) :=
  fold_left
    (fun st module_name =>
       let '(graph, imports_by_layer) := st in
       let collected :=
         fold_left
           (fun acc imported_module =>
              if negb (is_descendant_of imported_module layer_package) then
                let import_details :=
                  get_import_details graph module_name imported_module in
                acc ++ import_details
              else acc)
           (find_modules_directly_imported_by graph module_name) [] in
       (remove_module module_name graph, dict_set module_name collected imports_by_layer))
    module_names (graph, []).

(** [f"{importer} -> {imported} ({line_numbers})"] *)
Definition import_string (direct_import : ImportRecord) : string :=
  let line_numbers :=
    join ", " (map (fun n => ("l." ++ str_of_int n)%string) (line_numbers direct_import)) in
  (importer direct_import ++ " -> " ++ imported direct_import
     ++ " (" ++ line_numbers ++ ")")%string.

(** The loop over the records of one chain, shared by both renderers: the
    state is [first_line] and the calls made so far. *)
Definition render_chain (chain : list ImportRecord) : list output_event :=
  snd (fold_left
         (fun st direct_import =>
            let '(first_line, out) := st in
            if first_line : bool then
              (false, out ++ [print_error ("-   " ++ import_string direct_import)%string
                                          false])
            else
              (first_line,
               out ++ [indent_cursor; print_error (import_string direct_import) false]))
         chain (true, [])).

Definition render_broken_contract (check : ContractCheck (list (list ImportRecord)))
  : list output_event :=
  flat_map (fun chain => render_chain chain ++ [new_line]) (invalid_chains check).

Definition old_render_broken_contract (check : ContractCheck (list LayerChainData))
  : list output_event :=
  flat_map
    (fun chains_data =>
       [print (lower_layer chains_data ++ " is not allowed to import "
                 ++ higher_layer chains_data ++ ":")%string;
        new_line]
       ++ flat_map (fun chain => render_chain chain ++ [new_line]) (chains chains_data)
       ++ [new_line])
    (invalid_chains check).

End LayersContract.

(** * Auxiliary forms *)

(** The loops of [_generate_module_permutations] written over the positions
    of the layer list, with the method's own passes and resolution. *)
Definition permutations_over_indices (self : LayersContract) (graph : ImportGraph)
  : list (string * string) :=
  let n := List.length (layers self) in
  flat_map
    (fun container =>
       flat_map
         (fun i =>
            flat_map
              (fun j =>
                 match nth_error (layers self) i, nth_error (layers self) j with
                 | Some hi, Some lo =>
                     let h := LayersContract._module_from_layer hi container in
                     let l := LayersContract._module_from_layer lo container in
                     if mem h (modules graph) && mem l (modules graph)
                     then [(h, l)] else []
                 | _, _ => []
                 end)
              (seq (S i) (n - S i)))
         (seq 0 n))
    (LayersContract.quasi_containers self).

(** * The specification's wording

    Definitions that follow the words of the specification, to be compared
    with the methods above. *)

(** Section 4.2: [resolve(layer, container?)] joins the container prefix and
    the layer name with the separator of the hierarchy if a container is
    given, and is the layer name otherwise. *)
Definition resolve (layer : Layer) (container : option string) : string :=
  match container with
  | Some prefix => (prefix ++ "." ++ name layer)%string
  | None => name layer
  end.

(** Section 4.5: one pass for every container, one pass with no container
    if none is configured. *)
Definition passes (configured : option (list string)) : list (option string) :=
  match configured with
  | None => [None]
  | Some [] => [None]
  | Some (first :: others) => Some first :: map Some others
  end.

(** Section 4.5: for every pass, for every pair of indices [i < j] of the
    declared layer list, both layers resolved, the pair skipped when either
    module is absent from the graph. *)
Definition pairs_by_index (self : LayersContract) (graph : ImportGraph)
  : list (string * string) :=
  let n := List.length (layers self) in
  flat_map
    (fun container =>
       flat_map
         (fun i =>
            flat_map
              (fun j =>
                 match nth_error (layers self) i, nth_error (layers self) j with
                 | Some hi, Some lo =>
                     if mem (resolve hi container) (modules graph)
                        && mem (resolve lo container) (modules graph)
                     then [(resolve hi container, resolve lo container)]
                     else []
                 | _, _ => []
                 end)
              (seq (S i) (n - S i)))
         (seq 0 n))
    (passes (containers self)).

(** Section 8, squash soundness, as worded: every edge between a member of
    the subtree and a module outside it reappears on the synthetic node, in
    the same direction and with the identical line-number set, and the
    synthetic node has no other edge. *)
Definition squash_keeps_line_numbers (graph : ImportGraph) (package_name : string)
  : Prop :=
  let squashed := LayersContract._squash_package package_name graph in
  let members := package_name :: find_descendants graph package_name in
  (forall member outside,
      In member members ->
      is_descendant_of outside package_name = false ->
      (has_import graph outside member = true ->
       has_import squashed outside package_name = true
       /\ map line_number (get_import_details squashed outside package_name)
          = map line_number (get_import_details graph outside member))
      /\ (has_import graph member outside = true ->
          has_import squashed package_name outside = true
          /\ map line_number (get_import_details squashed package_name outside)
             = map line_number (get_import_details graph member outside)))
  /\ (forall other,
         (has_import squashed other package_name = true ->
          exists member, In member members /\ has_import graph other member = true)
         /\ (has_import squashed package_name other = true ->
             exists member, In member members /\ has_import graph member other = true)).

(** A package [p] with one member [p.a], imported at line 10 by [x]. *)
Definition boundary_graph : ImportGraph :=
  mkGraph [("p", false); ("p.a", false); ("x", false)]
          [mkEdge "x" "p.a" [mkProvenance 10 "import p.a"]].

(** Section 4.7: the starting modules of a coarse chain are the modules that
    directly import its second node and are descendants of its first node;
    the ending modules are the modules directly imported by its
    second-to-last node and descendants of its last node. *)
Definition starting_set (graph : ImportGraph) (chain : list string) : list string :=
  filter (fun m => is_descendant_of m (nth 0 chain ""))
         (find_modules_that_directly_import graph (nth 1 chain "")).

Definition ending_set (graph : ImportGraph) (chain : list string) : list string :=
  filter (fun m => is_descendant_of m (nth (List.length chain - 1) chain ""))
         (find_modules_directly_imported_by graph (nth (List.length chain - 2) chain "")).

(** The reporting shape of a chain of module names. *)
Definition records_of (graph : ImportGraph) (chain : list string) : list ImportRecord :=
  map (fun ii => mkRecord (fst ii) (snd ii)
                          (map line_number (get_import_details graph (fst ii) (snd ii))))
      (consecutive_pairs chain).

(** Section 7, as worded: a coarse chain of more than two nodes with no
    starting module or no ending module makes the reconstruction fail. *)
Definition empty_ends_fail_loudly (graph : ImportGraph) (chain : list string) : Prop :=
  2 < List.length chain ->
  starting_set graph chain = [] \/ ending_set graph chain = [] ->
  exists e, LayersContract._determine_specific_chains [map PStr chain] graph = Raise e.

(** [x] imports [high.a], and nothing of [low] imports [x]. *)
Definition one_sided_graph : ImportGraph :=
  mkGraph [("high", false); ("high.a", false); ("low", false); ("low.b", false);
           ("x", false)]
          [mkEdge "x" "high.a" [mkProvenance 3 "import high.a"]].

(** Two modules of [low] import [x], which imports two modules of [high]. *)
Definition fan_graph : ImportGraph :=
  mkGraph [("high", false); ("high.a", false); ("high.c", false);
           ("low", false); ("low.a", false); ("low.b", false); ("x", false)]
          [mkEdge "low.a" "x" [mkProvenance 1 "import x"];
           mkEdge "low.b" "x" [mkProvenance 2 "import x"];
           mkEdge "x" "high.a" [mkProvenance 3 "import high.a"];
           mkEdge "x" "high.c" [mkProvenance 4 "import high.c"]].

(** ** Scenarios *)

Definition two_layers : list Layer := [mkLayer "high" false; mkLayer "low" false].

Definition three_layers : list Layer :=
  [mkLayer "high" false; mkLayer "mid" false; mkLayer "low" false].

(** Section 8, direct violation: layers [high] and [low], no containers, and
    the single import of [high.a] by [low.b] at line 10. *)
Definition direct_violation_graph : ImportGraph :=
  mkGraph [("high", false); ("high.a", false); ("low", false); ("low.b", false)]
          [mkEdge "low.b" "high.a" [mkProvenance 10 "import high.a"]].

(** The same import in a graph that holds the two modules only. *)
Definition bare_violation_graph : ImportGraph :=
  mkGraph [("high.a", false); ("low.b", false)]
          [mkEdge "low.b" "high.a" [mkProvenance 10 "import high.a"]].

Definition direct_violation_contract : LayersContract :=
  mkContract two_layers None None ["high"; "low"].

(** The same layers inside the container [pkg]. *)
Definition packaged_graph : ImportGraph :=
  mkGraph [("pkg", false); ("pkg.high", false); ("pkg.high.a", false);
           ("pkg.low", false); ("pkg.low.b", false)]
          [mkEdge "pkg.low.b" "pkg.high.a" [mkProvenance 10 "import pkg.high.a"]].

Definition packaged_contract : LayersContract :=
  mkContract two_layers (Some ["pkg"]) None ["pkg"].

Definition ignoring_contract : LayersContract :=
  mkContract two_layers (Some ["pkg"]) (Some [("pkg.low.b", "pkg.high.a")]) ["pkg"].

Definition invalid_container_contract : LayersContract :=
  mkContract two_layers (Some ["other"]) None ["pkg"].

Definition missing_layer_contract : LayersContract :=
  mkContract [mkLayer "high" false; mkLayer "missing" false] (Some ["pkg"]) None ["pkg"].

(** Two containers with three layers each; in [c2] the lower layer imports
    the middle one, which imports the higher one. *)
Definition two_container_graph : ImportGraph :=
  mkGraph [("c1", false); ("c1.high", false); ("c1.mid", false); ("c1.low", false);
           ("c2", false); ("c2.high", false); ("c2.mid", false); ("c2.low", false)]
          [mkEdge "c2.low" "c2.mid" [mkProvenance 7 "import c2.mid"];
           mkEdge "c2.mid" "c2.high" [mkProvenance 8 "import c2.high"]].

Definition two_container_contract : LayersContract :=
  mkContract three_layers (Some ["c1"; "c2"]) None ["c1"; "c2"].

Definition containerless_graph : ImportGraph :=
  mkGraph [("high", false); ("mid", false); ("low", false)] [].

Definition containerless_contract : LayersContract :=
  mkContract three_layers None None ["high"; "mid"; "low"].

(** Section 4.4: a configuration error is the [ValueError] of the validator. *)
Definition configuration_error {A : Type} (r : result A) : Prop :=
  exists message, r = Raise (ValueError message).

(** What one pair of indices contributes. *)
Definition pair_at (self : LayersContract) (graph : ImportGraph)
           (container : option string) (i j : nat) : list (string * string) :=
  match nth_error (layers self) i, nth_error (layers self) j with
  | Some hi, Some lo =>
      let h := LayersContract._module_from_layer hi container in
      let l := LayersContract._module_from_layer lo container in
      if mem h (modules graph) && mem l (modules graph) then [(h, l)] else []
  | _, _ => []
  end.

(** The body of the prune loop of [check] once [self.containers[0]] is [c0]. *)
Definition prune_step (c0 higher lower : string) (tg : ImportGraph) (layer : Layer)
  : ImportGraph :=
  let module := LayersContract._module_from_layer layer (Some c0) in
  if negb (String.eqb module higher || String.eqb module lower)
  then LayersContract._remove_package module tg
  else tg.

(** Every two neighbours of a chain of names are an import of the graph. *)
Definition all_imports (graph : ImportGraph) (chain : list string) : bool :=
  forallb (fun ii => has_import graph (fst ii) (snd ii)) (consecutive_pairs chain).

(** Whether the pair [(x, y)] is among the imports to ignore. *)
Definition is_ignored (imports : list (string * string)) (x y : string) : bool :=
  existsb (fun i => String.eqb (fst i) x && String.eqb (snd i) y) imports.

(** The data of the pairs that have a chain, as [_alt_check] collects them. *)
Definition pairs_with_chains (self : LayersContract) (graph : ImportGraph)
  : list LayerChainData :=
  filter (fun data => match chains data with [] => false | _ => true end)
         (map (fun pair => LayersContract._build_layer_chain_data (fst pair) (snd pair) graph)
              (LayersContract._generate_module_permutations self graph)).

(** The calls that one chain makes, first line and continuation lines. *)
Definition chain_lines (chain : list ImportRecord) : list output_event :=
  match chain with
  | [] => []
  | first :: others =>
      print_error ("-   " ++ LayersContract.import_string first)%string false
      :: flat_map
           (fun direct_import =>
              [indent_cursor; print_error (LayersContract.import_string direct_import) false])
           others
  end.

Definition is_print_error (ev : output_event) : bool :=
  match ev with print_error _ _ => true | _ => false end.

Definition is_new_line (ev : output_event) : bool :=
  match ev with new_line => true | _ => false end.

Definition is_print (ev : output_event) : bool :=
  match ev with print _ => true | _ => false end.

Definition count (test : output_event -> bool) (out : list output_event) : nat :=
  List.length (filter test out).


(** The records of the neighbouring pairs of a chain of names, in the shape
    [_convert_chains] gives them. *)
Definition converted_records (graph : ImportGraph) (chain : list string)
  : list ConvertedRecord :=
  map (fun ii => mkConverted (fst ii) (PStr (snd ii))
                             (map line_number
                                  (get_import_details graph (fst ii) (snd ii))))
      (consecutive_pairs chain).

(** * Properties *)

(** ** Strings *)

Lemma endswith_char_app (s : string) (c : ascii) :
  endswith_char (s ++ String c EmptyString)%string c = true.
Proof.
  induction s as [|a s IH]; simpl.
  - apply Ascii.eqb_refl.
  - destruct (s ++ String c EmptyString)%string eqn:E; [|exact IH].
    destruct s; discriminate.
Qed.

Lemma endswith_char_inv (s : string) (c : ascii) :
  endswith_char s c = true -> exists body, s = (body ++ String c EmptyString)%string.
Proof.
  induction s as [|a s IH]; simpl; [discriminate|].
  destruct s as [|b s'].
  - intros H. apply Ascii.eqb_eq in H. subst a. now exists EmptyString.
  - intros H. destruct (IH H) as [body Hb]. exists (String a body).
    simpl. now rewrite <- Hb.
Qed.

Lemma substring_0_app (s t : string) :
  String.substring 0 (String.length s) (s ++ t)%string = s.
Proof.
  induction s as [|a s IH]; simpl.
  - now destruct t.
  - now rewrite IH.
Qed.

Lemma length_app_string (s t : string) :
  String.length (s ++ t)%string = String.length s + String.length t.
Proof. induction s as [|a s IH]; simpl; [reflexivity | now rewrite IH]. Qed.

Lemma slice_1_m1_wrapped (inner : string) :
  slice_1_m1 ("(" ++ inner ++ ")")%string = inner.
Proof.
  unfold slice_1_m1. cbn [String.append String.length String.substring].
  rewrite length_app_string. cbn [String.length].
  replace (S (String.length inner + 1) - 2) with (String.length inner) by lia.
  apply substring_0_app.
Qed.

Lemma wrapped_iff (s : string) :
  startswith s "(" = true /\ endswith_char s ")" = true <->
  exists inner, s = ("(" ++ inner ++ ")")%string.
Proof.
  split.
  - intros [Hs He]. destruct s as [|a s]; [discriminate|].
    unfold startswith in Hs. cbn [String.prefix] in Hs.
    destruct (ascii_dec "("%char a) as [Ha|Ha]; [subst a | discriminate].
    destruct s as [|b s]; [discriminate He|].
    change (endswith_char (String b s) ")" = true) in He.
    destruct (endswith_char_inv _ _ He) as [body Hb].
    exists body. now rewrite Hb.
  - intros [inner ->]. split.
    + unfold startswith. cbn [String.append String.prefix].
      destruct (ascii_dec "("%char "("%char); [now destruct (inner ++ ")")%string | congruence].
    + change ("(" ++ inner ++ ")")%string with (String "(" (inner ++ ")"))%string.
      pose proof (endswith_char_app inner ")") as H.
      simpl. destruct (inner ++ ")")%string eqn:E; [destruct inner; discriminate|].
      exact H.
Qed.

(** C10.  [LayerField.parse] gives an optional layer named by the inner
    substring exactly when the string starts with an opening and ends with a
    closing parenthesis, and otherwise a required layer named by the whole
    string. *)
Theorem parse_optional_iff_parenthesised (raw_string : string) :
  (startswith raw_string "(" = true /\ endswith_char raw_string ")" = true ->
   exists inner, raw_string = ("(" ++ inner ++ ")")%string
                 /\ LayerField.parse raw_string = mkLayer inner true)
  /\ (~ (startswith raw_string "(" = true /\ endswith_char raw_string ")" = true) ->
      LayerField.parse raw_string = mkLayer raw_string false).
Proof.
  split.
  - intros H. destruct (proj1 (wrapped_iff raw_string) H) as [inner ->].
    exists inner. split; [reflexivity|].
    unfold LayerField.parse. destruct H as [-> ->]. simpl andb. cbv iota.
    now rewrite slice_1_m1_wrapped.
  - intros H. unfold LayerField.parse.
    destruct (startswith raw_string "(") eqn:Hs;
      destruct (endswith_char raw_string ")") eqn:He; try reflexivity.
    exfalso. apply H. now split.
Qed.

Lemma parse_optional_iff_parenthesised_witness :
  (exists inner, "(aux)" = ("(" ++ inner ++ ")")%string
                 /\ LayerField.parse "(aux)" = mkLayer inner true)
  /\ LayerField.parse "(aux" = mkLayer "(aux" false.
Proof.
  split.
  - apply (proj1 (parse_optional_iff_parenthesised "(aux)")). split; reflexivity.
  - apply (proj2 (parse_optional_iff_parenthesised "(aux")).
    intros [_ H]. cbv in H. discriminate H.
Defined.

(** ** Lists *)

Lemma mem_In (x : string) (xs : list string) : mem x xs = true <-> In x xs.
Proof.
  unfold mem. rewrite existsb_exists. split.
  - intros [y [Hy He]]. apply String.eqb_eq in He. now subst.
  - intros H. exists x. split; [exact H | apply String.eqb_refl].
Qed.

Lemma flat_map_nil {A B : Type} (xs : list A) :
  flat_map (fun _ : A => @nil B) xs = [].
Proof. induction xs; simpl; auto. Qed.

Lemma flat_map_over_map {A B C : Type} (f : B -> list C) (g : A -> B) (xs : list A) :
  flat_map f (map g xs) = flat_map (fun x => f (g x)) xs.
Proof. induction xs as [|x xs IH]; simpl; [reflexivity | now rewrite IH]. Qed.

Lemma flat_map_skipn_seq {A B : Type} (f : A -> list B) (xs : list A) (k : nat) :
  flat_map f (skipn k xs) =
  flat_map (fun j => match nth_error xs j with Some y => f y | None => [] end)
           (seq k (List.length xs - k)).
Proof.
  revert k. induction xs as [|x xs IH]; intros k.
  - rewrite skipn_nil. reflexivity.
  - destruct k as [|k].
    + simpl skipn. simpl List.length. rewrite Nat.sub_0_r.
      cbn [seq flat_map nth_error]. f_equal.
      specialize (IH 0). simpl skipn in IH. rewrite Nat.sub_0_r in IH.
      rewrite IH, <- seq_shift, flat_map_over_map. reflexivity.
    + simpl skipn. simpl List.length. rewrite Nat.sub_succ.
      rewrite IH, <- seq_shift, flat_map_over_map. reflexivity.
Qed.

Lemma flat_map_enumerate_from {A B : Type} (f : nat * A -> list B)
      (pre xs : list A) :
  flat_map f (combine (seq (List.length pre) (List.length xs)) xs) =
  flat_map (fun i => match nth_error (pre ++ xs) i with
                     | Some x => f (i, x)
                     | None => []
                     end)
           (seq (List.length pre) (List.length xs)).
Proof.
  revert pre. induction xs as [|x xs IH]; intros pre; [reflexivity|].
  cbn [List.length seq combine flat_map].
  rewrite nth_error_app2 by lia. rewrite Nat.sub_diag. cbn [nth_error].
  f_equal.
  specialize (IH (pre ++ [x])).
  rewrite length_app, <- app_assoc in IH. cbn [List.length app] in IH.
  rewrite Nat.add_1_r in IH. exact IH.
Qed.

Lemma flat_map_enumerate {A B : Type} (f : nat * A -> list B) (xs : list A) :
  flat_map f (enumerate xs) =
  flat_map (fun i => match nth_error xs i with Some x => f (i, x) | None => [] end)
           (seq 0 (List.length xs)).
Proof. exact (flat_map_enumerate_from f [] xs). Qed.

(** ** The layer-pair enumerator *)

Lemma permutations_by_index (self : LayersContract) (graph : ImportGraph) :
  LayersContract._generate_module_permutations self graph = permutations_over_indices self graph.
Proof.
  unfold LayersContract._generate_module_permutations, permutations_over_indices.
  apply flat_map_ext. intros container.
  rewrite flat_map_enumerate.
  apply flat_map_ext. intros i.
  destruct (nth_error (layers self) i) as [hi|] eqn:Hi.
  - destruct (mem (LayersContract._module_from_layer hi container) (modules graph)) eqn:Hh.
    + cbn [negb]. rewrite Nat.add_1_r, flat_map_skipn_seq.
      apply flat_map_ext. intros j.
      destruct (nth_error (layers self) j) as [lo|]; [|reflexivity].
      cbn [andb].
      now destruct (mem (LayersContract._module_from_layer lo container) (modules graph)).
    + cbn [negb]. symmetry.
      erewrite flat_map_ext; [apply flat_map_nil|].
      intros j. cbn beta. now destruct (nth_error (layers self) j).
  - symmetry. apply flat_map_nil.
Qed.

Lemma truthy_neq (s : string) : s <> "" -> truthy s = true.
Proof.
  intros H. unfold truthy. apply negb_true_iff. now apply String.eqb_neq.
Qed.

Lemma permutations_membership (self : LayersContract) (graph : ImportGraph)
      (h l : string) :
  In (h, l) (LayersContract._generate_module_permutations self graph) <->
  exists container i j hi lo,
    In container (LayersContract.quasi_containers self)
    /\ i < j
    /\ nth_error (layers self) i = Some hi
    /\ nth_error (layers self) j = Some lo
    /\ h = LayersContract._module_from_layer hi container
    /\ l = LayersContract._module_from_layer lo container
    /\ In h (modules graph) /\ In l (modules graph).
Proof.
  rewrite permutations_by_index. unfold permutations_over_indices.
  rewrite in_flat_map. split.
  - intros [container [Hc H]]. apply in_flat_map in H. destruct H as [i [Hi H]].
    apply in_flat_map in H. destruct H as [j [Hj H]].
    apply in_seq in Hj.
    destruct (nth_error (layers self) i) as [hi|] eqn:Ei; [|contradiction].
    destruct (nth_error (layers self) j) as [lo|] eqn:Ej; [|contradiction].
    cbn zeta in H.
    destruct (mem (LayersContract._module_from_layer hi container) (modules graph)) eqn:Hh;
      [|contradiction].
    destruct (mem (LayersContract._module_from_layer lo container) (modules graph)) eqn:Hl;
      [|contradiction].
    destruct H as [H|[]]. inversion H; subst h l.
    exists container, i, j, hi, lo.
    repeat split; auto; try lia; now apply mem_In.
  - intros [container [i [j [hi [lo [Hc [Hij [Hi [Hj [-> [-> [Hh Hl]]]]]]]]]]]].
    exists container. split; [exact Hc|].
    assert (Hjn : j < List.length (layers self))
      by (apply nth_error_Some; congruence).
    apply in_flat_map. exists i. split; [apply in_seq; lia|].
    apply in_flat_map. exists j. split; [apply in_seq; lia|].
    rewrite Hi, Hj. cbn zeta.
    apply mem_In in Hh. apply mem_In in Hl. rewrite Hh, Hl. now left.
Qed.

Lemma flat_map_ext_on {A B : Type} (f g : A -> list B) (xs : list A) :
  (forall x, In x xs -> f x = g x) -> flat_map f xs = flat_map g xs.
Proof.
  induction xs as [|x xs IH]; intros H; [reflexivity|].
  cbn [flat_map]. rewrite (H x (or_introl eq_refl)), IH; [reflexivity|].
  intros y Hy. apply H. now right.
Qed.

Lemma quasi_containers_are_passes (self : LayersContract) :
  LayersContract.quasi_containers self = passes (containers self).
Proof.
  unfold LayersContract.quasi_containers, passes.
  destruct (containers self) as [[|first others]|]; reflexivity.
Qed.

Lemma in_passes (configured : option (list string)) (container : option string) :
  In container (passes configured) <->
  (or_empty configured = [] /\ container = None)
  \/ (exists prefix, In prefix (or_empty configured) /\ container = Some prefix).
Proof.
  destruct configured as [[|first others]|]; cbn [passes or_empty].
  - split.
    + intros [<-|[]]. left. now split.
    + intros [[_ ->]|[prefix [[] _]]]. now left.
  - change (Some first :: map Some others) with (map Some (first :: others)).
    rewrite in_map_iff. split.
    + intros [prefix [<- Hin]]. right. now exists prefix.
    + intros [[H _]|[prefix [Hin ->]]]; [discriminate|]. now exists prefix.
  - split.
    + intros [<-|[]]. left. now split.
    + intros [[_ ->]|[prefix [[] _]]]. now left.
Qed.

Lemma module_from_layer_resolves (layer : Layer) (container : option string) :
  container <> Some "" ->
  LayersContract._module_from_layer layer container = resolve layer container.
Proof.
  intros H. destruct container as [prefix|]; [|reflexivity].
  cbn [LayersContract._module_from_layer resolve].
  rewrite truthy_neq; [reflexivity|]. intros ->. now apply H.
Qed.

(** C6.  The enumerator yields, for every container (one pass without
    container when none is configured) and every pair of layer indices
    [i < j], adjacent or not, the pair of resolved modules, and leaves out
    exactly the pairs with a resolved module that is not in the graph.  A
    pair is yielded iff it comes from two such indices, with both modules
    in the graph, as the bare layer names when no container is configured
    and as [container.layer] for a configured container (an empty
    container name counts as no container); and when no container name is
    empty the output is the enumeration by index pairs of the
    specification, in its order. *)
Theorem permutations_are_all_ordered_pairs (self : LayersContract) (graph : ImportGraph) :
  (forall h l,
      In (h, l) (LayersContract._generate_module_permutations self graph) <->
      exists i j hi lo,
        i < j
        /\ nth_error (layers self) i = Some hi
        /\ nth_error (layers self) j = Some lo
        /\ In h (modules graph) /\ In l (modules graph)
        /\ ((or_empty (containers self) = [] /\ h = name hi /\ l = name lo)
            \/ exists container,
                In container (or_empty (containers self))
                /\ ((container <> ""
                     /\ h = (container ++ "." ++ name hi)%string
                     /\ l = (container ++ "." ++ name lo)%string)
                    \/ (container = "" /\ h = name hi /\ l = name lo))))
  /\ ((forall container, In container (or_empty (containers self)) -> container <> "") ->
      LayersContract._generate_module_permutations self graph
      = pairs_by_index self graph).
Proof.
  split.
  - intros h l. rewrite permutations_membership. split.
    + intros [container [i [j [hi [lo [Hc [Hij [Hi [Hj [Hh [Hl [Hhm Hlm]]]]]]]]]]]].
      exists i, j, hi, lo. repeat (split; [assumption|]).
      rewrite quasi_containers_are_passes in Hc. apply in_passes in Hc.
      destruct Hc as [[Hnone ->]|[prefix [Hin ->]]].
      * left. now repeat split.
      * right. exists prefix. split; [exact Hin|].
        cbn [LayersContract._module_from_layer] in Hh, Hl.
        destruct (string_dec prefix "") as [->|Hne].
        -- right. now repeat split.
        -- left. rewrite (truthy_neq prefix Hne) in Hh, Hl. cbn [join] in Hh, Hl.
           now repeat split.
    + intros [i [j [hi [lo [Hij [Hi [Hj [Hhm [Hlm Hcase]]]]]]]]].
      destruct Hcase as [[Hnone [Hh Hl]]|[prefix [Hin Hcase]]].
      * exists None, i, j, hi, lo. rewrite quasi_containers_are_passes.
        repeat (split; [first [assumption | apply in_passes; left; now split]|]).
        assumption.
      * exists (Some prefix), i, j, hi, lo. rewrite quasi_containers_are_passes.
        split; [apply in_passes; right; now exists prefix|].
        cbn [LayersContract._module_from_layer].
        destruct Hcase as [[Hne [Hh Hl]]|[-> [Hh Hl]]].
        -- rewrite (truthy_neq prefix Hne). cbn [join]. now repeat split.
        -- now repeat split.
  - intros Hnonempty. rewrite permutations_by_index.
    unfold permutations_over_indices, pairs_by_index. cbv zeta.
    rewrite quasi_containers_are_passes. apply flat_map_ext_on. intros container Hc.
    assert (Hres : forall layer,
               LayersContract._module_from_layer layer container
               = resolve layer container).
    { intros layer. apply module_from_layer_resolves. intros ->.
      apply in_passes in Hc. destruct Hc as [[_ Hc]|[prefix [Hin Hc]]]; [discriminate|].
      inversion Hc; subst prefix. now apply (Hnonempty "" Hin). }
    apply flat_map_ext. intros i. apply flat_map_ext. intros j.
    destruct (nth_error (layers self) i) as [hi|]; [|reflexivity].
    destruct (nth_error (layers self) j) as [lo|]; [|reflexivity].
    now rewrite !Hres.
Qed.

Lemma permutations_are_all_ordered_pairs_witness :
  LayersContract._generate_module_permutations two_container_contract two_container_graph
  = [("c1.high", "c1.mid"); ("c1.high", "c1.low"); ("c1.mid", "c1.low");
     ("c2.high", "c2.mid"); ("c2.high", "c2.low"); ("c2.mid", "c2.low")].
Proof.
  rewrite (proj2 (permutations_are_all_ordered_pairs
                    two_container_contract two_container_graph)).
  - vm_compute. reflexivity.
  - intros container Hin. vm_compute in Hin.
    destruct Hin as [<-|[<-|[]]]; discriminate.
Defined.

(** ** Graph operations *)

Lemma set_add_In (x y : string) (xs : list string) :
  In x (set_add y xs) <-> x = y \/ In x xs.
Proof.
  unfold set_add. destruct (mem y xs) eqn:E.
  - apply mem_In in E. split; [auto|]. intros [->|H]; auto.
  - rewrite in_app_iff. simpl. intuition.
Qed.

Lemma collect_outside_In (p : string) (xs acc : list string) (x : string) :
  In x (fold_left
          (fun acc module =>
             if negb (is_descendant_of module p) then set_add module acc else acc)
          xs acc)
  <-> In x acc \/ (In x xs /\ is_descendant_of x p = false).
Proof.
  revert acc. induction xs as [|y xs IH]; intros acc; simpl.
  - intuition.
  - rewrite IH. destruct (is_descendant_of y p) eqn:E; simpl.
    + split; [intuition|]. intros [H|[[->|H] Hd]]; auto. congruence.
    + rewrite set_add_In. split.
      * intros [[->|H]|[H Hd]]; auto.
      * intros [H|[[->|H] Hd]]; auto.
Qed.

Lemma has_import_exists (g : ImportGraph) (a b : string) :
  has_import g a b = true <->
  exists e, In e (edges g) /\ edge_importer e = a /\ edge_imported e = b.
Proof.
  unfold has_import. rewrite existsb_exists. unfold edge_is.
  split; intros [e [He H]]; exists e; split; auto.
  - apply andb_true_iff in H. destruct H as [H1 H2].
    apply String.eqb_eq in H1, H2. auto.
  - destruct H as [-> ->]. now rewrite !String.eqb_refl.
Qed.

Lemma importers_In (g : ImportGraph) (m x : string) :
  In x (find_modules_that_directly_import g m) <-> has_import g x m = true.
Proof.
  unfold find_modules_that_directly_import.
  rewrite nodup_In, in_map_iff, has_import_exists.
  split; intros [e H]; exists e.
  - destruct H as [Hx He]. apply filter_In in He. destruct He as [He Hm].
    apply String.eqb_eq in Hm. auto.
  - destruct H as [He [Hx Hm]]. split; [exact Hx|].
    apply filter_In. split; [exact He|]. now apply String.eqb_eq.
Qed.

Lemma imported_In (g : ImportGraph) (m x : string) :
  In x (find_modules_directly_imported_by g m) <-> has_import g m x = true.
Proof.
  unfold find_modules_directly_imported_by.
  rewrite nodup_In, in_map_iff, has_import_exists.
  split; intros [e H]; exists e.
  - destruct H as [Hx He]. apply filter_In in He. destruct He as [He Hm].
    apply String.eqb_eq in Hm. auto.
  - destruct H as [He [Hm Hx]]. split; [exact Hx|].
    apply filter_In. split; [exact He|]. now apply String.eqb_eq.
Qed.

Lemma has_import_remove_module (d : string) (g : ImportGraph) (a b : string) :
  has_import (remove_module d g) a b = true <->
  has_import g a b = true /\ a <> d /\ b <> d.
Proof.
  rewrite !has_import_exists. unfold remove_module. cbn [edges].
  split.
  - intros [e [He [Ha Hb]]]. apply filter_In in He. destruct He as [He Ht].
    unfold touches in Ht. apply negb_true_iff, orb_false_iff in Ht.
    destruct Ht as [H1 H2]. apply String.eqb_neq in H1, H2. subst a b.
    split; [now exists e | auto].
  - intros [[e [He [Ha Hb]]] [Hna Hnb]]. exists e. split; [|auto].
    apply filter_In. split; [exact He|]. unfold touches. subst a b.
    apply String.eqb_neq in Hna, Hnb. now rewrite Hna, Hnb.
Qed.

Lemma has_import_remove_modules (ds : list string) (g : ImportGraph) (a b : string) :
  has_import (fold_left (fun g0 d => remove_module d g0) ds g) a b = true <->
  has_import g a b = true /\ ~ In a ds /\ ~ In b ds.
Proof.
  revert g. induction ds as [|d ds IH]; intros g; simpl.
  - intuition.
  - rewrite IH, has_import_remove_module. intuition.
Qed.

Lemma has_import_add_module (m : string) (f : bool) (g : ImportGraph) (a b : string) :
  has_import (add_module m f g) a b = has_import g a b.
Proof. unfold add_module. now destruct (mem m (modules g)). Qed.

Lemma edges_add_module (m : string) (f : bool) (g : ImportGraph) :
  edges (add_module m f g) = edges g.
Proof. unfold add_module. now destruct (mem m (modules g)). Qed.

Lemma nodes_add_module (m : string) (f : bool) (g : ImportGraph) (n : string * bool) :
  In n (nodes g) -> In n (nodes (add_module m f g)).
Proof.
  unfold add_module. destruct (mem m (modules g)); [auto|].
  cbn [nodes]. rewrite in_app_iff. auto.
Qed.

Lemma nodes_add_import (a b : string) (o : option Provenance) (g : ImportGraph)
      (n : string * bool) :
  In n (nodes g) -> In n (nodes (add_import a b o g)).
Proof.
  intros H. unfold add_import.
  destruct (has_import g a b); cbn [nodes]; now repeat apply nodes_add_module.
Qed.

Lemma has_import_add_import (a b : string) (g : ImportGraph) (x y : string) :
  has_import (add_import a b None g) x y = true <->
  has_import g x y = true \/ (x = a /\ y = b).
Proof.
  unfold add_import. destruct (has_import g a b) eqn:Hab.
  - rewrite !has_import_exists. cbn [edges]. rewrite !edges_add_module. split.
    + intros [e [He [Hx Hy]]]. apply in_map_iff in He. destruct He as [e0 [Hf He0]].
      left. exists e0. split; [exact He0|].
      destruct (edge_is a b e0) eqn:Hi; [|now subst e0].
      apply andb_true_iff in Hi. destruct Hi as [H1 H2].
      apply String.eqb_eq in H1, H2. subst e. cbn in Hx, Hy. now subst.
    + intros H.
      assert (Hxy : exists e, In e (edges g) /\ edge_importer e = x /\ edge_imported e = y).
      { destruct H as [H|[-> ->]]; [exact H|]. now apply has_import_exists. }
      destruct Hxy as [e [He [Hx Hy]]].
      exists (if edge_is a b e then mkEdge a b (edge_details e ++ []) else e).
      split; [apply in_map_iff; now exists e|].
      destruct (edge_is a b e) eqn:Hi; [|auto].
      apply andb_true_iff in Hi. destruct Hi as [H1 H2].
      apply String.eqb_eq in H1, H2. cbn. split; congruence.
  - rewrite (has_import_exists g). rewrite has_import_exists. cbn [edges].
    rewrite !edges_add_module. split.
    + intros [e [He H]]. apply in_app_iff in He. destruct He as [He|[<-|[]]].
      * left. now exists e.
      * right. cbn in H. intuition.
    + intros [[e [He H]]|[-> ->]].
      * exists e. split; [apply in_app_iff; now left | exact H].
      * exists (mkEdge a b []). split; [apply in_app_iff; right; now left | now split].
Qed.

Lemma find_snoc {A : Type} (f : A -> bool) (xs : list A) (z : A) :
  find f (xs ++ [z]) =
  match find f xs with
  | Some r => Some r
  | None => if f z then Some z else None
  end.
Proof.
  induction xs as [|x xs IH]; simpl; [reflexivity|].
  now destruct (f x).
Qed.

Lemma edge_is_rebuilt (a b x y : string) (e : Edge) (d : list Provenance) :
  edge_is a b e = true -> edge_is x y (mkEdge a b d) = edge_is x y e.
Proof.
  unfold edge_is. cbn [edge_importer edge_imported]. intros H.
  apply andb_true_iff in H. destruct H as [H1 H2].
  apply String.eqb_eq in H1, H2. now rewrite H1, H2.
Qed.

Lemma details_add_import (a b : string) (g : ImportGraph) (x y : string) :
  get_import_details (add_import a b None g) x y = get_import_details g x y.
Proof.
  unfold add_import, get_import_details. destruct (has_import g a b) eqn:Hab.
  - cbn [edges]. rewrite !edges_add_module.
    induction (edges g) as [|e es IH]; [reflexivity|].
    cbn [map find]. destruct (edge_is a b e) eqn:Hi.
    + rewrite (edge_is_rebuilt a b x y e _ Hi).
      destruct (edge_is x y e); [|exact IH].
      cbn. now rewrite app_nil_r.
    + destruct (edge_is x y e); [reflexivity | exact IH].
  - cbn [edges]. rewrite !edges_add_module, find_snoc.
    destruct (find (edge_is x y) (edges g)); [reflexivity|].
    now destruct (edge_is x y (mkEdge a b [])).
Qed.

Lemma details_none_without_import (g : ImportGraph) (a b : string) :
  has_import g a b = false -> get_import_details g a b = [].
Proof.
  unfold has_import, get_import_details. intros H.
  destruct (find (edge_is a b) (edges g)) as [e|] eqn:E; [|reflexivity].
  apply find_some in E. destruct E as [He Hi].
  assert (existsb (edge_is a b) (edges g) = true)
    by (apply existsb_exists; now exists e).
  congruence.
Qed.

(** ** Squashing a package *)

Lemma member_is_descendant (g : ImportGraph) (p d : string) :
  In d (p :: find_descendants g p) -> is_descendant_of d p = true.
Proof.
  unfold is_descendant_of. intros [<-|H].
  - now rewrite String.eqb_refl.
  - unfold find_descendants in H. apply filter_In in H. destruct H as [_ H].
    rewrite H. apply orb_true_r.
Qed.

Lemma squash_fold_graph (p : string) (ds : list string) (st : LayersContract.squash_state) :
  LayersContract.sq_graph (fold_left (LayersContract.squash_step p) ds st)
  = fold_left (fun g d => remove_module d g) ds (LayersContract.sq_graph st).
Proof.
  revert st. induction ds as [|d ds IH]; intros st; [reflexivity|].
  simpl. now rewrite IH.
Qed.

Lemma squash_fold_importers (p : string) (ds : list string)
      (st : LayersContract.squash_state) (x : string) :
  (forall d, In d ds -> is_descendant_of d p = true) ->
  In x (LayersContract.modules_that_import_package
          (fold_left (LayersContract.squash_step p) ds st))
  <-> In x (LayersContract.modules_that_import_package st)
      \/ (is_descendant_of x p = false
          /\ exists d, In d ds /\ has_import (LayersContract.sq_graph st) x d = true).
Proof.
  revert st. induction ds as [|d0 ds IH]; intros st Hds.
  - simpl. split; [auto|]. intros [H|[_ [d [[] _]]]]. exact H.
  - cbn [fold_left]. rewrite IH by (intros d Hd; apply Hds; now right).
    unfold LayersContract.squash_step.
    cbn [LayersContract.modules_that_import_package LayersContract.sq_graph].
    rewrite collect_outside_In, importers_In.
    assert (Hd0 : is_descendant_of d0 p = true) by (apply Hds; now left).
    split.
    + intros [[H|[H Hx]]|[Hx [d [Hd H]]]].
      * now left.
      * right. split; [exact Hx|]. exists d0. split; [now left | exact H].
      * apply has_import_remove_module in H. destruct H as [H _].
        right. split; [exact Hx|]. exists d. split; [now right | exact H].
    + intros [H|[Hx [d [[<-|Hd] H]]]].
      * left. now left.
      * left. right. now split.
      * destruct (string_dec d d0) as [->|Hne].
        -- left. right. now split.
        -- right. split; [exact Hx|]. exists d. split; [exact Hd|].
           apply has_import_remove_module. repeat split; auto.
           intros ->. congruence.
Qed.

Lemma squash_fold_imported (p : string) (ds : list string)
      (st : LayersContract.squash_state) (x : string) :
  (forall d, In d ds -> is_descendant_of d p = true) ->
  In x (LayersContract.modules_imported_by_package
          (fold_left (LayersContract.squash_step p) ds st))
  <-> In x (LayersContract.modules_imported_by_package st)
      \/ (is_descendant_of x p = false
          /\ exists d, In d ds /\ has_import (LayersContract.sq_graph st) d x = true).
Proof.
  revert st. induction ds as [|d0 ds IH]; intros st Hds.
  - simpl. split; [auto|]. intros [H|[_ [d [[] _]]]]. exact H.
  - cbn [fold_left]. rewrite IH by (intros d Hd; apply Hds; now right).
    unfold LayersContract.squash_step.
    cbn [LayersContract.modules_imported_by_package LayersContract.sq_graph].
    rewrite collect_outside_In, imported_In.
    assert (Hd0 : is_descendant_of d0 p = true) by (apply Hds; now left).
    split.
    + intros [[H|[H Hx]]|[Hx [d [Hd H]]]].
      * now left.
      * right. split; [exact Hx|]. exists d0. split; [now left | exact H].
      * apply has_import_remove_module in H. destruct H as [H _].
        right. split; [exact Hx|]. exists d. split; [now right | exact H].
    + intros [H|[Hx [d [[<-|Hd] H]]]].
      * left. now left.
      * left. right. now split.
      * destruct (string_dec d d0) as [->|Hne].
        -- left. right. now split.
        -- right. split; [exact Hx|]. exists d. split; [exact Hd|].
           apply has_import_remove_module. repeat split; auto.
           intros ->. congruence.
Qed.

Lemma has_import_add_importers (p : string) (ms : list string) (g : ImportGraph)
      (x y : string) :
  has_import (fold_left (fun g0 module => add_import module p None g0) ms g) x y = true
  <-> has_import g x y = true \/ (In x ms /\ y = p).
Proof.
  revert g. induction ms as [|m ms IH]; intros g; simpl.
  - intuition.
  - rewrite IH, has_import_add_import. split.
    + intros [[H|[-> ->]]|[H ->]]; auto.
    + intros [H|[[<-|H] ->]]; auto.
Qed.

Lemma has_import_add_imported (p : string) (ms : list string) (g : ImportGraph)
      (x y : string) :
  has_import (fold_left (fun g0 module => add_import p module None g0) ms g) x y = true
  <-> has_import g x y = true \/ (x = p /\ In y ms).
Proof.
  revert g. induction ms as [|m ms IH]; intros g; simpl.
  - intuition.
  - rewrite IH, has_import_add_import. split.
    + intros [[H|[-> ->]]|[-> H]]; auto.
    + intros [H|[-> [<-|H]]]; auto.
Qed.

Lemma details_add_importers (p : string) (ms : list string) (g : ImportGraph)
      (x y : string) :
  get_import_details (fold_left (fun g0 module => add_import module p None g0) ms g) x y
  = get_import_details g x y.
Proof.
  revert g. induction ms as [|m ms IH]; intros g; simpl; [reflexivity|].
  now rewrite IH, details_add_import.
Qed.

Lemma details_add_imported (p : string) (ms : list string) (g : ImportGraph)
      (x y : string) :
  get_import_details (fold_left (fun g0 module => add_import p module None g0) ms g) x y
  = get_import_details g x y.
Proof.
  revert g. induction ms as [|m ms IH]; intros g; simpl; [reflexivity|].
  now rewrite IH, details_add_import.
Qed.

Lemma details_add_module (m : string) (f : bool) (g : ImportGraph) (x y : string) :
  get_import_details (add_module m f g) x y = get_import_details g x y.
Proof. unfold get_import_details. now rewrite edges_add_module. Qed.

Lemma squashed_import_into (g : ImportGraph) (p m : string) :
  has_import (LayersContract._squash_package p g) m p = true <->
  is_descendant_of m p = false
  /\ exists d, In d (p :: find_descendants g p) /\ has_import g m d = true.
Proof.
  unfold LayersContract._squash_package.
  rewrite has_import_add_imported, has_import_add_importers, has_import_add_module,
    squash_fold_graph, has_import_remove_modules.
  cbn [LayersContract.sq_graph].
  rewrite squash_fold_importers by apply member_is_descendant.
  rewrite squash_fold_imported by apply member_is_descendant.
  cbn [LayersContract.modules_that_import_package
         LayersContract.modules_imported_by_package LayersContract.sq_graph].
  assert (Hp : is_descendant_of p p = true)
    by (unfold is_descendant_of; now rewrite String.eqb_refl).
  split.
  - intros [[[_ [_ H]]|[[[]|H] _]]|[-> [[]|[H _]]]].
    + exfalso. apply H. now left.
    + exact H.
    + congruence.
  - intros H. left. right. split; [now right | reflexivity].
Qed.

Lemma squashed_import_from (g : ImportGraph) (p m : string) :
  has_import (LayersContract._squash_package p g) p m = true <->
  is_descendant_of m p = false
  /\ exists d, In d (p :: find_descendants g p) /\ has_import g d m = true.
Proof.
  unfold LayersContract._squash_package.
  rewrite has_import_add_imported, has_import_add_importers, has_import_add_module,
    squash_fold_graph, has_import_remove_modules.
  cbn [LayersContract.sq_graph].
  rewrite squash_fold_importers by apply member_is_descendant.
  rewrite squash_fold_imported by apply member_is_descendant.
  cbn [LayersContract.modules_that_import_package
         LayersContract.modules_imported_by_package LayersContract.sq_graph].
  assert (Hp : is_descendant_of p p = true)
    by (unfold is_descendant_of; now rewrite String.eqb_refl).
  split.
  - intros [[[_ [H _]]|[[[]|[H _]] ->]]|[_ [[]|H]]].
    + exfalso. apply H. now left.
    + congruence.
    + exact H.
  - intros H. right. split; [reflexivity | now right].
Qed.

Lemma squashed_details_touching (g : ImportGraph) (p x y : string) :
  x = p \/ y = p ->
  get_import_details (LayersContract._squash_package p g) x y = [].
Proof.
  intros Hxy. unfold LayersContract._squash_package.
  rewrite details_add_imported, details_add_importers, details_add_module,
    squash_fold_graph.
  apply details_none_without_import. apply not_true_is_false.
  rewrite has_import_remove_modules. cbn [LayersContract.sq_graph].
  intros [_ [Hx Hy]]. destruct Hxy as [->| ->]; [apply Hx | apply Hy]; now left.
Qed.

Lemma squashed_node_present (g : ImportGraph) (p : string) :
  In p (modules (LayersContract._squash_package p g)).
Proof.
  unfold LayersContract._squash_package.
  set (g1 := add_module p true _).
  assert (H1 : exists f, In (p, f) (nodes g1)).
  { unfold g1, add_module. match goal with |- context [mem p ?l] => destruct (mem p l) eqn:E end.
    - apply mem_In in E. unfold modules in E. apply in_map_iff in E.
      destruct E as [[n f] [Hn Hin]]. simpl in Hn. subst n. now exists f.
    - exists true. cbn [nodes]. apply in_app_iff. right. now left. }
  destruct H1 as [f H1].
  assert (Hfold : forall (F : ImportGraph -> string -> ImportGraph) ms g0,
             (forall g' m, In (p, f) (nodes g') -> In (p, f) (nodes (F g' m))) ->
             In (p, f) (nodes g0) -> In (p, f) (nodes (fold_left F ms g0))).
  { intros F ms. induction ms as [|m ms IH]; intros g0 HF H0; simpl; auto. }
  unfold modules. apply in_map_iff. exists (p, f). split; [reflexivity|].
  apply Hfold; [intros; now apply nodes_add_import|].
  apply Hfold; [intros; now apply nodes_add_import|]. exact H1.
Qed.

(** C3, amended.  After [_squash_package], the synthetic node has an edge
    from (to) an outside module exactly when some member of the subtree was
    imported by (imported) that module, in the same direction; it has no
    other edge, and the edges of the synthetic node carry no line numbers. *)
Theorem squash_keeps_boundary_edges_without_lines
        (graph : ImportGraph) (package_name outside : string) :
  let squashed := LayersContract._squash_package package_name graph in
  let members := package_name :: find_descendants graph package_name in
  In package_name (modules squashed)
  /\ (has_import squashed outside package_name = true <->
      is_descendant_of outside package_name = false
      /\ exists member, In member members /\ has_import graph outside member = true)
  /\ (has_import squashed package_name outside = true <->
      is_descendant_of outside package_name = false
      /\ exists member, In member members /\ has_import graph member outside = true)
  /\ get_import_details squashed outside package_name = []
  /\ get_import_details squashed package_name outside = [].
Proof.
  cbv zeta. split; [apply squashed_node_present|].
  split; [apply squashed_import_into|].
  split; [apply squashed_import_from|].
  split; apply squashed_details_touching; auto.
Qed.

(** C3 as worded fails: [x] imports [p.a] at line 10, and after squashing
    [p] the edge from [x] to the synthetic node has no line number. *)
Lemma squash_drops_line_numbers : ~ squash_keeps_line_numbers boundary_graph "p".
Proof.
  intros [H _].
  destruct (H "p.a" "x") as [Hin _].
  - right. left. reflexivity.
  - reflexivity.
  - destruct (Hin eq_refl) as [_ Hlines]. vm_compute in Hlines. discriminate Hlines.
Qed.

(** ** Chain reconstruction *)

Lemma index_names (xs : list string) (i : nat) :
  i < List.length xs -> index (map PStr xs) i = Ok (PStr (nth i xs "")).
Proof.
  intros H. unfold index. rewrite nth_error_map.
  now rewrite (nth_error_nth' xs "" H).
Qed.

Lemma index_from_end_names (xs : list string) (k : nat) :
  1 <= k <= List.length xs ->
  index_from_end (map PStr xs) k = Ok (PStr (nth (List.length xs - k) xs "")).
Proof.
  intros H. unfold index_from_end. rewrite length_map.
  destruct (Nat.leb_spec k (List.length xs)); [|lia].
  destruct (Nat.eqb_spec k 0); [lia|].
  apply index_names. lia.
Qed.

(** The comprehension passes only when it has no candidate to test. *)
Lemma descendants_among_candidates (candidates : list string) (package : pyval) :
  LayersContract.descendants_among candidates package
  = match candidates with
    | [] => Ok []
    | _ :: _ => Raise AttributeError
    end.
Proof. now destruct candidates. Qed.

(** The loop body on a coarse chain of names with more than two nodes. *)
Lemma specific_chains_step_names (graph : ImportGraph) (acc : list (list pyval))
      (chain : list string) :
  2 < List.length chain ->
  LayersContract.specific_chains_step graph acc (map PStr chain)
  = match find_modules_that_directly_import graph (nth 1 chain "") with
    | _ :: _ => Raise AttributeError
    | [] =>
        match find_modules_directly_imported_by
                graph (nth (List.length chain - 2) chain "") with
        | _ :: _ => Raise AttributeError
        | [] => Ok acc
        end
    end.
Proof.
  intros Hlen. unfold LayersContract.specific_chains_step.
  rewrite length_map. destruct (Nat.eqb_spec (List.length chain) 2); [lia|].
  rewrite !index_names by lia. cbn [bind as_module_name].
  rewrite descendants_among_candidates.
  destruct (find_modules_that_directly_import graph (nth 1 chain "")); [|reflexivity].
  cbn [bind]. rewrite !index_from_end_names by lia. cbn [bind as_module_name].
  rewrite descendants_among_candidates.
  destruct (find_modules_directly_imported_by
              graph (nth (List.length chain - 2) chain "")); reflexivity.
Qed.

Lemma determine_names (graph : ImportGraph) (chain : list string) :
  2 < List.length chain ->
  LayersContract._determine_specific_chains [map PStr chain] graph
  = match find_modules_that_directly_import graph (nth 1 chain "") with
    | _ :: _ => Raise AttributeError
    | [] =>
        match find_modules_directly_imported_by
                graph (nth (List.length chain - 2) chain "") with
        | _ :: _ => Raise AttributeError
        | [] => Ok []
        end
    end.
Proof.
  intros Hlen. unfold LayersContract._determine_specific_chains.
  cbn [for_each]. rewrite specific_chains_step_names by exact Hlen.
  destruct (find_modules_that_directly_import graph (nth 1 chain "")); [|reflexivity].
  destruct (find_modules_directly_imported_by
              graph (nth (List.length chain - 2) chain "")); reflexivity.
Qed.

(** C8 fails on [_determine_specific_chains]: for a coarse chain of more
    than two nodes the filter of the candidates hands a node of the chain,
    a [str], to [is_descendant_of], so the reconstruction raises
    [AttributeError] as soon as the second node has a direct importer or
    the second-to-last node has a direct import, and emits no chain.  With
    two starting and two ending modules, where three chains are due, it
    raises. *)
Theorem reconstruction_raises_on_candidates :
  (forall graph chain,
      2 < List.length chain ->
      find_modules_that_directly_import graph (nth 1 chain "") <> []
      \/ find_modules_directly_imported_by graph (nth (List.length chain - 2) chain "")
         <> [] ->
      LayersContract._determine_specific_chains [map PStr chain] graph
      = Raise AttributeError)
  /\ starting_set fan_graph ["low"; "x"; "high"] = ["low.a"; "low.b"]
  /\ ending_set fan_graph ["low"; "x"; "high"] = ["high.a"; "high.c"]
  /\ LayersContract._determine_specific_chains [map PStr ["low"; "x"; "high"]] fan_graph
     = Raise AttributeError
  /\ LayersContract._determine_specific_chains [map PStr ["low"; "x"; "high"]]
                                               one_sided_graph
     = Raise AttributeError.
Proof.
  split.
  - intros graph chain Hlen Hcand. rewrite determine_names by exact Hlen.
    destruct (find_modules_that_directly_import graph (nth 1 chain "")); [|reflexivity].
    destruct (find_modules_directly_imported_by
                graph (nth (List.length chain - 2) chain "")); [|reflexivity].
    destruct Hcand; congruence.
  - vm_compute. repeat split.
Qed.

(** C9, amended.  For a coarse chain of more than two nodes whose second
    node has no direct importer and whose second-to-last node imports
    nothing, the starting and the ending set are both empty, and the
    reconstruction raises nothing and emits no chain. *)
Theorem reconstruction_without_candidates_is_silent
        (graph : ImportGraph) (chain : list string) :
  2 < List.length chain ->
  find_modules_that_directly_import graph (nth 1 chain "") = [] ->
  find_modules_directly_imported_by graph (nth (List.length chain - 2) chain "") = [] ->
  starting_set graph chain = []
  /\ ending_set graph chain = []
  /\ LayersContract._determine_specific_chains [map PStr chain] graph = Ok [].
Proof.
  intros Hlen Hs He. unfold starting_set, ending_set.
  rewrite determine_names by exact Hlen. rewrite Hs, He. repeat split.
Qed.

Lemma reconstruction_without_candidates_is_silent_witness :
  starting_set containerless_graph ["low"; "mid"; "high"] = []
  /\ ending_set containerless_graph ["low"; "mid"; "high"] = []
  /\ LayersContract._determine_specific_chains [map PStr ["low"; "mid"; "high"]]
                                               containerless_graph
     = Ok [].
Proof.
  assert (H1 : 2 < List.length ["low"; "mid"; "high"]) by (simpl; lia).
  exact (reconstruction_without_candidates_is_silent
           containerless_graph ["low"; "mid"; "high"] H1 eq_refl eq_refl).
Defined.

(** C9 as worded fails: in a graph without imports the chain
    [low, mid, high] has no starting and no ending module, and the
    reconstruction returns without a chain and without an error. *)
Lemma no_candidates_is_silent :
  ~ empty_ends_fail_loudly containerless_graph ["low"; "mid"; "high"].
Proof.
  intros H. destruct H as [e He].
  - simpl. lia.
  - left. reflexivity.
  - vm_compute in He. discriminate He.
Qed.

(** ** The check on the scenarios *)

(** [check] hands back the graph as [pop_imports] left it. *)
Lemma check_returns_filtered_graph (self : LayersContract) (graph : ImportGraph) :
  fst (LayersContract.check self graph)
  = fst (pop_imports graph (or_empty (ignore_imports self))).
Proof.
  unfold LayersContract.check.
  now destruct (pop_imports graph (or_empty (ignore_imports self))).
Qed.

(** C1 fails on [check]: [check] always hands back the graph as
    [pop_imports] left it; with the import of [pkg.high.a] by [pkg.low.b]
    ignored, it returns a kept contract and a graph in which the import is
    gone, while [_alt_check] returns the graph as it was. *)
Theorem check_leaves_ignored_import_out :
  (forall self graph,
      fst (LayersContract.check self graph)
      = fst (pop_imports graph (or_empty (ignore_imports self))))
  /\ get_import_details packaged_graph "pkg.low.b" "pkg.high.a"
     = [mkProvenance 10 "import pkg.high.a"]
  /\ snd (LayersContract.check ignoring_contract packaged_graph) = Ok (mkCheck true [])
  /\ get_import_details (fst (LayersContract.check ignoring_contract packaged_graph))
                        "pkg.low.b" "pkg.high.a" = []
  /\ has_import (fst (LayersContract.check ignoring_contract packaged_graph))
                "pkg.low.b" "pkg.high.a" = false
  /\ fst (LayersContract._alt_check ignoring_contract packaged_graph) = packaged_graph.
Proof.
  split; [exact check_returns_filtered_graph|].
  vm_compute. repeat split.
Qed.

(** C2 fails on [check]: in the direct-violation scenario [check] raises
    [TypeError] at [self.containers[0]]; on the graph of the two modules
    alone it yields no pair and reports a kept contract; inside a container
    the reconstruction raises [IndexError]. *)
Theorem direct_violation_is_not_reported :
  LayersContract.check direct_violation_contract direct_violation_graph
  = (direct_violation_graph, Raise TypeError)
  /\ snd (LayersContract.check direct_violation_contract bare_violation_graph)
     = Ok (mkCheck true [])
  /\ snd (LayersContract.check packaged_contract packaged_graph) = Raise IndexError.
Proof. vm_compute. repeat split. Qed.

(** C4 fails on [check]: for the pair of [c2.high] and [c2.low] the pruning
    looks at the layers of [c1] only and keeps [c2.mid], so the path query
    runs through that layer; without containers the pruning raises. *)
Theorem prune_keeps_other_layer_of_second_container :
  In ("c2.high", "c2.low")
     (LayersContract._generate_module_permutations two_container_contract
                                                   two_container_graph)
  /\ (exists temp_graph,
         LayersContract.prune two_container_contract two_container_graph
                              "c2.high" "c2.low" = Ok temp_graph
         /\ mem "c2.mid" (modules temp_graph) = true
         /\ all_shortest_paths temp_graph "c2.low" "c2.high"
            = Ok [["c2.low"; "c2.mid"; "c2.high"]])
  /\ LayersContract.prune containerless_contract containerless_graph "high" "low"
     = Raise TypeError.
Proof.
  split; [vm_compute; tauto|].
  split; [|vm_compute; reflexivity].
  eexists. split; [vm_compute; reflexivity|].
  split; vm_compute; reflexivity.
Qed.

(** *** No validation in [check] *)

Ltac no_configuration_error :=
  let H := fresh in intros [? H]; discriminate H.

Lemma bind_no_configuration_error {A B : Type} (r : result A) (k : A -> result B) :
  ~ configuration_error r ->
  (forall a, ~ configuration_error (k a)) ->
  ~ configuration_error (bind r k).
Proof.
  intros Hr Hk. destruct r as [a|e]; cbn [bind]; [apply Hk|].
  intros [message H]. apply Hr. exists message. inversion H. reflexivity.
Qed.

Lemma for_each_no_configuration_error {A S : Type} (body : S -> A -> result S)
      (xs : list A) (acc : S) :
  (forall s a, ~ configuration_error (body s a)) ->
  ~ configuration_error (for_each body xs acc).
Proof.
  intros Hbody. revert acc. induction xs as [|x xs IH]; intros acc; cbn [for_each].
  - no_configuration_error.
  - apply bind_no_configuration_error; [apply Hbody | exact IH].
Qed.

Lemma map_result_no_configuration_error {A B : Type} (f : A -> result B) (xs : list A) :
  (forall a, ~ configuration_error (f a)) ->
  ~ configuration_error (map_result f xs).
Proof.
  intros Hf. induction xs as [|x xs IH]; cbn [map_result].
  - no_configuration_error.
  - apply bind_no_configuration_error; [apply Hf|]. intros y.
    apply bind_no_configuration_error; [exact IH|]. intros ys. no_configuration_error.
Qed.

Lemma index_no_configuration_error {A : Type} (xs : list A) (i : nat) :
  ~ configuration_error (index xs i).
Proof. unfold index. destruct (nth_error xs i); no_configuration_error. Qed.

Lemma index_from_end_no_configuration_error {A : Type} (xs : list A) (k : nat) :
  ~ configuration_error (index_from_end xs k).
Proof.
  unfold index_from_end. destruct (Nat.leb k (List.length xs)); [|no_configuration_error].
  destruct (Nat.eqb k 0); [no_configuration_error | apply index_no_configuration_error].
Qed.

Lemma as_module_name_no_configuration_error (v : pyval) :
  ~ configuration_error (as_module_name v).
Proof. destruct v; no_configuration_error. Qed.

Lemma descendants_among_no_configuration_error (candidates : list string) (p : pyval) :
  ~ configuration_error (LayersContract.descendants_among candidates p).
Proof.
  unfold LayersContract.descendants_among. apply bind_no_configuration_error.
  - apply map_result_no_configuration_error. intros m.
    apply bind_no_configuration_error; [no_configuration_error|].
    intros. no_configuration_error.
  - intros. no_configuration_error.
Qed.

Lemma prune_no_configuration_error (self : LayersContract) (graph : ImportGraph)
      (higher lower : string) :
  ~ configuration_error (LayersContract.prune self graph higher lower).
Proof.
  unfold LayersContract.prune. apply for_each_no_configuration_error. intros tg layer.
  apply bind_no_configuration_error.
  - unfold LayersContract.containers_0.
    destruct (containers self); [apply index_no_configuration_error|no_configuration_error].
  - intros c0. match goal with |- context [if ?b then _ else _] => destruct b end;
      no_configuration_error.
Qed.

Lemma determine_no_configuration_error (chains : list (list pyval)) (graph : ImportGraph) :
  ~ configuration_error (LayersContract._determine_specific_chains chains graph).
Proof.
  unfold LayersContract._determine_specific_chains. apply bind_no_configuration_error.
  - apply for_each_no_configuration_error. intros acc chain.
    unfold LayersContract.specific_chains_step.
    destruct (Nat.eqb (List.length chain) 2); [no_configuration_error|].
    repeat (first
              [ apply descendants_among_no_configuration_error
              | apply index_no_configuration_error
              | apply index_from_end_no_configuration_error
              | apply as_module_name_no_configuration_error
              | apply for_each_no_configuration_error; intros ? ?
              | apply bind_no_configuration_error; [|intros ?]
              | no_configuration_error ]).
  - intros invalid. unfold LayersContract._convert_chains.
    apply map_result_no_configuration_error. intros chain.
    apply map_result_no_configuration_error. intros ii.
    repeat (first
              [ apply bind_no_configuration_error; [|intros ?]
              | apply as_module_name_no_configuration_error
              | no_configuration_error ]).
Qed.

(** [check] raises no configuration error, whatever the declaration. *)
Lemma check_no_configuration_error (self : LayersContract) (graph : ImportGraph) :
  ~ configuration_error (snd (LayersContract.check self graph)).
Proof.
  unfold LayersContract.check.
  destruct (pop_imports graph (or_empty (ignore_imports self))) as [filtered removed].
  cbn [snd]. apply bind_no_configuration_error.
  - apply for_each_no_configuration_error. intros [is_kept found] [higher lower].
    apply bind_no_configuration_error; [apply prune_no_configuration_error|].
    intros temp_graph. apply bind_no_configuration_error.
    + unfold all_shortest_paths.
      destruct (mem lower (modules temp_graph)); no_configuration_error.
    + intros data. destruct data; no_configuration_error.
  - intros [is_kept found]. apply bind_no_configuration_error.
    + apply determine_no_configuration_error.
    + intros. no_configuration_error.
Qed.

(** C5 fails on [check]: [check] raises no configuration error on any
    input; with a container outside the root package, and with a required
    layer whose module is missing, it reports a kept contract, while
    [_validate_containers] and [_alt_check] raise the configuration error. *)
Theorem check_skips_validation :
  (forall self graph, ~ configuration_error (snd (LayersContract.check self graph)))
  /\ snd (LayersContract.check invalid_container_contract packaged_graph)
     = Ok (mkCheck true [])
  /\ LayersContract._validate_containers invalid_container_contract packaged_graph
     = Raise (ValueError
                "Invalid container 'other': a container must either be a subpackage of pkg, or pkg itself.")
  /\ snd (LayersContract._alt_check invalid_container_contract packaged_graph)
     = Raise (ValueError
                "Invalid container 'other': a container must either be a subpackage of pkg, or pkg itself.")
  /\ snd (LayersContract.check missing_layer_contract packaged_graph)
     = Ok (mkCheck true [])
  /\ LayersContract._validate_containers missing_layer_contract packaged_graph
     = Raise (ValueError
                "Missing layer in container 'pkg': module pkg.missing does not exist.").
Proof.
  split; [exact check_no_configuration_error|].
  vm_compute. repeat split.
Qed.

(** * Further properties of the methods *)

(** ** The validator *)

Lemma for_each_unit_ok {A : Type} (test : A -> result unit) (xs : list A) :
  for_each (fun _ x => test x) xs tt = Ok tt <-> forall x, In x xs -> test x = Ok tt.
Proof.
  induction xs as [|x xs IH]; cbn [for_each].
  - split; [intros _ y []|reflexivity].
  - destruct (test x) as [[]|e] eqn:E; cbn [bind].
    + rewrite IH. split.
      * intros H y [<-|Hy]; auto.
      * intros H y Hy. apply H. now right.
    + split; [discriminate|]. intros H.
      specialize (H x (or_introl eq_refl)). congruence.
Qed.

Lemma for_each_unit_first_failure {A : Type} (test : A -> result unit)
      (pre post : list A) (x : A) (e : exn) :
  (forall y, In y pre -> test y = Ok tt) ->
  test x = Raise e ->
  for_each (fun _ y => test y) (pre ++ x :: post) tt = Raise e.
Proof.
  intros Hpre Hx. induction pre as [|y pre IH]; cbn [app for_each].
  - now rewrite Hx.
  - rewrite (Hpre y (or_introl eq_refl)). cbn [bind].
    apply IH. intros z Hz. apply Hpre. now right.
Qed.

Lemma for_each_unit_raise {A : Type} (test : A -> result unit) (xs : list A) (e : exn) :
  for_each (fun _ x => test x) xs tt = Raise e ->
  exists pre x post,
    xs = pre ++ x :: post /\ (forall y, In y pre -> test y = Ok tt) /\ test x = Raise e.
Proof.
  induction xs as [|x xs IH]; cbn [for_each]; [discriminate|].
  destruct (test x) as [[]|e'] eqn:E; cbn [bind].
  - intros H. destruct (IH H) as [pre [y [post [-> [Hpre Hy]]]]].
    exists (x :: pre), y, post. split; [reflexivity|]. split; [|exact Hy].
    intros z [<-|Hz]; auto.
  - intros H. inversion H; subst e'. exists [], x, xs.
    split; [reflexivity|]. split; [intros z []|exact E].
Qed.

(** The test of one layer in [_check_all_containerless_layers_exist]. *)
Lemma containerless_layer_test (graph : ImportGraph) (layer : Layer) :
  (if is_optional layer then Ok tt
   else if negb (mem (name layer) (modules graph)) then
          Raise (ValueError
                   ("Missing layer '" ++ name layer ++ "': module " ++ name layer
                      ++ " does not exist.")%string)
        else Ok tt) = Ok tt
  <-> (is_optional layer = false -> In (name layer) (modules graph)).
Proof.
  destruct (is_optional layer).
  - split; [discriminate | reflexivity].
  - destruct (mem (name layer) (modules graph)) eqn:E; cbn [negb].
    + apply mem_In in E. split; auto.
    + split; [discriminate|]. intros H. apply mem_In in H; [congruence | reflexivity].
Qed.

(** X1.  [_check_all_containerless_layers_exist] passes exactly when every
    layer that is not optional names a module of the graph; otherwise it
    raises the [ValueError] of the first such layer that is missing. *)
Theorem containerless_layers_exist_iff (self : LayersContract) (graph : ImportGraph) :
  (LayersContract._check_all_containerless_layers_exist self graph = Ok tt
   <-> forall layer, In layer (layers self) -> is_optional layer = false ->
                     In (name layer) (modules graph))
  /\ (forall e,
         LayersContract._check_all_containerless_layers_exist self graph = Raise e ->
         exists before layer after,
           layers self = before ++ layer :: after
           /\ (forall l, In l before -> is_optional l = false ->
                         In (name l) (modules graph))
           /\ is_optional layer = false
           /\ ~ In (name layer) (modules graph)
           /\ e = ValueError ("Missing layer '" ++ name layer ++ "': module "
                                ++ name layer ++ " does not exist.")%string).
Proof.
  unfold LayersContract._check_all_containerless_layers_exist. split.
  - rewrite for_each_unit_ok. split; intros H layer Hin.
    + apply containerless_layer_test. now apply H.
    + apply containerless_layer_test. now apply H.
  - intros e He. apply for_each_unit_raise in He.
    destruct He as [before [layer [after [Hl [Hpre Hx]]]]].
    exists before, layer, after. split; [exact Hl|]. split.
    + intros l Hin. apply containerless_layer_test. now apply Hpre.
    + destruct (is_optional layer); [discriminate|].
      destruct (mem (name layer) (modules graph)) eqn:E; cbn [negb] in Hx; [discriminate|].
      split; [reflexivity|]. split; [|now inversion Hx].
      intros Hin. apply mem_In in Hin. congruence.
Qed.

Lemma container_layer_test (container : string) (graph : ImportGraph) (layer : Layer) :
  (if is_optional layer then Ok tt
   else
     let layer_module_name := join "." [container; name layer] in
     if negb (mem layer_module_name (modules graph)) then
       Raise (ValueError
                ("Missing layer in container '" ++ container ++ "': module "
                   ++ layer_module_name ++ " does not exist.")%string)
     else Ok tt) = Ok tt
  <-> (is_optional layer = false ->
       In (container ++ "." ++ name layer)%string (modules graph)).
Proof.
  cbn [join]. destruct (is_optional layer).
  - split; [discriminate | reflexivity].
  - cbv zeta. destruct (mem (container ++ "." ++ name layer)%string (modules graph)) eqn:E;
      cbn [negb].
    + apply mem_In in E. split; auto.
    + split; [discriminate|]. intros H. apply mem_In in H; [congruence | reflexivity].
Qed.

Lemma container_layers_ok (self : LayersContract) (container : string)
      (graph : ImportGraph) :
  LayersContract._check_all_layers_exist_for_container self container graph = Ok tt
  <-> forall layer, In layer (layers self) -> is_optional layer = false ->
                    In (container ++ "." ++ name layer)%string (modules graph).
Proof.
  unfold LayersContract._check_all_layers_exist_for_container.
  rewrite for_each_unit_ok. split; intros H layer Hin.
  - apply container_layer_test. now apply H.
  - apply container_layer_test. now apply H.
Qed.

(** X2.  [_check_all_layers_exist_for_container] passes exactly when, for
    every layer that is not optional, the module [container.layer] is in the
    graph; otherwise it raises a [ValueError] that names the container and
    the first such module that is missing. *)
Theorem container_layers_exist_iff (self : LayersContract) (container : string)
        (graph : ImportGraph) :
  (LayersContract._check_all_layers_exist_for_container self container graph = Ok tt
   <-> forall layer, In layer (layers self) -> is_optional layer = false ->
                     In (container ++ "." ++ name layer)%string (modules graph))
  /\ (forall e,
         LayersContract._check_all_layers_exist_for_container self container graph
         = Raise e ->
         exists before layer after,
           layers self = before ++ layer :: after
           /\ (forall l, In l before -> is_optional l = false ->
                         In (container ++ "." ++ name l)%string (modules graph))
           /\ is_optional layer = false
           /\ ~ In (container ++ "." ++ name layer)%string (modules graph)
           /\ e = ValueError ("Missing layer in container '" ++ container
                                ++ "': module " ++ (container ++ "." ++ name layer)
                                ++ " does not exist.")%string).
Proof.
  split; [apply container_layers_ok|].
  unfold LayersContract._check_all_layers_exist_for_container.
  - intros e He. apply for_each_unit_raise in He.
    destruct He as [before [layer [after [Hl [Hpre Hx]]]]].
    exists before, layer, after. split; [exact Hl|]. split.
    + intros l Hin. apply container_layer_test. now apply Hpre.
    + cbn [join] in Hx. cbv zeta in Hx. destruct (is_optional layer); [discriminate|].
      destruct (mem (container ++ "." ++ name layer)%string (modules graph)) eqn:E;
        cbn [negb] in Hx; [discriminate|].
      split; [reflexivity|]. split; [|now inversion Hx].
      intros Hin. apply mem_In in Hin. congruence.
Qed.

Lemma validate_container_test (self : LayersContract) (graph : ImportGraph)
      (c : string) :
  (if negb (mem (root_package_name c) (root_packages self)) then
     Raise (ValueError (LayersContract.invalid_container_message c (root_packages self)))
   else LayersContract._check_all_layers_exist_for_container self c graph)
  = Ok tt
  <-> In (root_package_name c) (root_packages self)
      /\ LayersContract._check_all_layers_exist_for_container self c graph = Ok tt.
Proof.
  destruct (mem (root_package_name c) (root_packages self)) eqn:E; cbn [negb].
  - apply mem_In in E. tauto.
  - split; [discriminate|]. intros [H _]. apply mem_In in H. congruence.
Qed.

Lemma validate_containers_ok (self : LayersContract) (graph : ImportGraph) :
  LayersContract._validate_containers self graph = Ok tt
  <-> exists configured,
       containers self = Some configured
       /\ forall container, In container configured ->
            In (root_package_name container) (root_packages self)
            /\ forall layer, In layer (layers self) -> is_optional layer = false ->
                 In (container ++ "." ++ name layer)%string (modules graph).
Proof.
  unfold LayersContract._validate_containers. cbv zeta.
  destruct (containers self) as [configured|].
  - rewrite for_each_unit_ok. split.
    + intros H. exists configured. split; [reflexivity|]. intros c Hc.
      apply H, validate_container_test in Hc. destruct Hc as [Hr Hl].
      split; [exact Hr|]. now apply container_layers_ok.
    + intros [cs [Hcs H]] c Hc. inversion Hcs; subst cs.
      apply validate_container_test. destruct (H c Hc) as [Hr Hl].
      split; [exact Hr|]. now apply container_layers_ok.
  - split; [discriminate|]. intros [cs [Hcs _]]. discriminate.
Qed.

(** X3.  [_validate_containers] passes exactly when containers are
    configured, every container has its root package among the root
    packages, and every layer that is not optional exists in every
    container.  The first container with a foreign root package raises the
    [ValueError] that names it, before its layers are looked at. *)
Theorem validate_containers_iff (self : LayersContract) (graph : ImportGraph) :
  (LayersContract._validate_containers self graph = Ok tt
   <-> exists configured,
        containers self = Some configured
        /\ forall container, In container configured ->
             In (root_package_name container) (root_packages self)
             /\ forall layer, In layer (layers self) -> is_optional layer = false ->
                  In (container ++ "." ++ name layer)%string (modules graph))
  /\ (forall before container after,
         containers self = Some (before ++ container :: after) ->
         (forall c, In c before ->
                    In (root_package_name c) (root_packages self)
                    /\ LayersContract._check_all_layers_exist_for_container self c graph
                       = Ok tt) ->
         ~ In (root_package_name container) (root_packages self) ->
         LayersContract._validate_containers self graph
         = Raise (ValueError (LayersContract.invalid_container_message
                                container (root_packages self)))).
Proof.
  split; [apply validate_containers_ok|].
  unfold LayersContract._validate_containers. cbv zeta.
  intros before container after Hc Hbefore Hroot. rewrite Hc.
  apply for_each_unit_first_failure.
  - intros c Hin. apply validate_container_test. now apply Hbefore.
  - destruct (mem (root_package_name container) (root_packages self)) eqn:E;
      cbn [negb]; [|reflexivity].
    apply mem_In in E. contradiction.
Qed.

Lemma validate_containers_iff_witness :
  LayersContract._validate_containers invalid_container_contract packaged_graph
  = Raise (ValueError (LayersContract.invalid_container_message "other" ["pkg"])).
Proof.
  apply (proj2 (validate_containers_iff invalid_container_contract packaged_graph)
               [] "other" []).
  - reflexivity.
  - intros c [].
  - vm_compute. intros [H|[]]. discriminate H.
Defined.

(** ** The validator and the enumerator together *)

Lemma containerless_layers_ok (self : LayersContract) (graph : ImportGraph) :
  LayersContract._check_all_containerless_layers_exist self graph = Ok tt
  <-> forall layer, In layer (layers self) -> is_optional layer = false ->
                    In (name layer) (modules graph).
Proof.
  unfold LayersContract._check_all_containerless_layers_exist.
  rewrite for_each_unit_ok. split; intros H layer Hin.
  - apply containerless_layer_test. now apply H.
  - apply containerless_layer_test. now apply H.
Qed.

Lemma permutations_intro (self : LayersContract) (graph : ImportGraph)
      (container : option string) (i j : nat) (hi lo : Layer) :
  In container (LayersContract.quasi_containers self) ->
  i < j ->
  nth_error (layers self) i = Some hi ->
  nth_error (layers self) j = Some lo ->
  In (LayersContract._module_from_layer hi container) (modules graph) ->
  In (LayersContract._module_from_layer lo container) (modules graph) ->
  In (LayersContract._module_from_layer hi container,
      LayersContract._module_from_layer lo container)
     (LayersContract._generate_module_permutations self graph).
Proof.
  intros Hc Hij Hi Hj Hh Hl. rewrite permutations_by_index. unfold permutations_over_indices.
  assert (Hjn : j < List.length (layers self)) by (apply nth_error_Some; congruence).
  apply in_flat_map. exists container. split; [exact Hc|].
  apply in_flat_map. exists i. split; [apply in_seq; lia|].
  apply in_flat_map. exists j. split; [apply in_seq; lia|].
  rewrite Hi, Hj. cbn zeta.
  apply mem_In in Hh. apply mem_In in Hl. rewrite Hh, Hl. now left.
Qed.


(** X4.  What the validator accepts, the enumerator yields: after
    [_validate_containers] has passed, every pair of layers that are not
    optional, the first declared before the second, is yielded for every
    container with a non-empty name; and after
    [_check_all_containerless_layers_exist] has passed on a contract without
    containers, every such pair is yielded under the bare layer names. *)
Theorem validated_layers_are_enumerated (self : LayersContract) (graph : ImportGraph)
        (i j : nat) (hi lo : Layer) :
  i < j ->
  nth_error (layers self) i = Some hi ->
  nth_error (layers self) j = Some lo ->
  is_optional hi = false ->
  is_optional lo = false ->
  (LayersContract._validate_containers self graph = Ok tt ->
   forall configured container,
     containers self = Some configured -> In container configured -> container <> "" ->
     In ((container ++ "." ++ name hi)%string, (container ++ "." ++ name lo)%string)
        (LayersContract._generate_module_permutations self graph))
  /\ (LayersContract._check_all_containerless_layers_exist self graph = Ok tt ->
      or_empty (containers self) = [] ->
      In (name hi, name lo) (LayersContract._generate_module_permutations self graph)).
Proof.
  intros Hij Hi Hj Hoi Hoj.
  assert (Hin_i : In hi (layers self)) by (eapply nth_error_In; eauto).
  assert (Hin_j : In lo (layers self)) by (eapply nth_error_In; eauto).
  split.
  - intros Hv configured container Hc Hin Hne.
    apply validate_containers_ok in Hv. destruct Hv as [cs [Hcs Hall]].
    rewrite Hc in Hcs. inversion Hcs; subst cs.
    destruct (Hall container Hin) as [_ Hlayers].
    assert (Hq : In (Some container) (LayersContract.quasi_containers self)).
    { unfold LayersContract.quasi_containers. rewrite Hc. cbn [or_empty].
      destruct configured as [|c0 cs]; [contradiction|]. now apply in_map. }
    pose proof (permutations_intro self graph (Some container) i j hi lo Hq Hij Hi Hj)
      as H.
    unfold LayersContract._module_from_layer in H.
    rewrite (truthy_neq container Hne) in H. cbn [join] in H.
    apply H; now apply Hlayers.
  - intros Hv Hnone.
    assert (Hq : In None (LayersContract.quasi_containers self)).
    { unfold LayersContract.quasi_containers. rewrite Hnone. now left. }
    pose proof (permutations_intro self graph None i j hi lo Hq Hij Hi Hj) as H.
    cbn [LayersContract._module_from_layer] in H.
    pose proof (proj1 (containerless_layers_ok self graph) Hv) as Hall.
    apply H; now apply Hall.
Qed.

Lemma validated_layers_are_enumerated_witness :
  In ("pkg.high", "pkg.low")
     (LayersContract._generate_module_permutations packaged_contract packaged_graph).
Proof.
  assert (H01 : 0 < 1) by lia.
  refine (proj1 (validated_layers_are_enumerated
                   packaged_contract packaged_graph 0 1
                   (mkLayer "high" false) (mkLayer "low" false)
                   H01 eq_refl eq_refl eq_refl eq_refl)
                _ ["pkg"] "pkg" eq_refl _ _).
  - vm_compute. reflexivity.
  - now left.
  - discriminate.
Defined.

(** ** How many pairs the enumerator yields *)

Lemma list_sum_le (A : Type) (f g : A -> nat) (xs : list A) :
  (forall x, In x xs -> f x <= g x) ->
  list_sum (map f xs) <= list_sum (map g xs).
Proof.
  induction xs as [|x xs IH]; intros H; simpl; [lia|].
  pose proof (H x (or_introl eq_refl)).
  assert (list_sum (map f xs) <= list_sum (map g xs))
    by (apply IH; intros y Hy; apply H; now right).
  lia.
Qed.

Lemma list_sum_eq (A : Type) (f g : A -> nat) (xs : list A) :
  (forall x, In x xs -> f x = g x) ->
  list_sum (map f xs) = list_sum (map g xs).
Proof.
  induction xs as [|x xs IH]; intros H; simpl; [reflexivity|].
  rewrite (H x (or_introl eq_refl)), IH; [reflexivity|].
  intros y Hy. apply H. now right.
Qed.

Lemma list_sum_const (A : Type) (k : nat) (xs : list A) :
  list_sum (map (fun _ => k) xs) = k * List.length xs.
Proof. induction xs as [|x xs IH]; simpl; lia. Qed.

Lemma triangle_sum (n k : nat) :
  2 * list_sum (map (fun i => k + n - S i) (seq k n)) = n * (n - 1).
Proof.
  revert k. induction n as [|n IH]; intros k; [reflexivity|].
  cbn [seq map]. change (list_sum (?a :: ?l)) with (a + list_sum l).
  rewrite (list_sum_eq _ (fun i => k + S n - S i) (fun i => S k + n - S i))
    by (intros; lia).
  specialize (IH (S k)). nia.
Qed.

Lemma pair_at_le (self : LayersContract) (graph : ImportGraph)
      (container : option string) (i j : nat) :
  List.length (pair_at self graph container i j) <= 1.
Proof.
  unfold pair_at. destruct (nth_error (layers self) i); [|simpl; lia].
  destruct (nth_error (layers self) j); [|simpl; lia].
  cbv zeta. match goal with |- context [if ?b then _ else _] => destruct b end; simpl; lia.
Qed.

Lemma permutations_length (self : LayersContract) (graph : ImportGraph) :
  List.length (LayersContract._generate_module_permutations self graph)
  = list_sum
      (map (fun container =>
              list_sum
                (map (fun i =>
                        list_sum
                          (map (fun j => List.length (pair_at self graph container i j))
                               (seq (S i) (List.length (layers self) - S i))))
                     (seq 0 (List.length (layers self)))))
           (LayersContract.quasi_containers self)).
Proof.
  rewrite permutations_by_index. unfold permutations_over_indices. cbv zeta.
  rewrite length_flat_map. apply list_sum_eq. intros container _.
  rewrite length_flat_map. apply list_sum_eq. intros i _.
  rewrite length_flat_map. reflexivity.
Qed.

(** X5.  The enumerator yields at most one pair per container and pair of
    positions [i < j] of the layer list, [n (n - 1) / 2] per container for
    [n] layers, hence none for fewer than two layers; it yields exactly that
    many when every resolved layer module is in the graph. *)
Theorem permutations_count (self : LayersContract) (graph : ImportGraph) :
  let n := List.length (layers self) in
  let passes := List.length (LayersContract.quasi_containers self) in
  2 * List.length (LayersContract._generate_module_permutations self graph)
  <= passes * (n * (n - 1))
  /\ (n < 2 -> LayersContract._generate_module_permutations self graph = [])
  /\ ((forall container layer,
          In container (LayersContract.quasi_containers self) ->
          In layer (layers self) ->
          In (LayersContract._module_from_layer layer container) (modules graph)) ->
      2 * List.length (LayersContract._generate_module_permutations self graph)
      = passes * (n * (n - 1))).
Proof.
  cbv zeta. rewrite permutations_length.
  set (n := List.length (layers self)).
  assert (Hbound :
            2 * list_sum
                  (map (fun container =>
                          list_sum
                            (map (fun i =>
                                    list_sum
                                      (map (fun j =>
                                              List.length (pair_at self graph container i j))
                                           (seq (S i) (n - S i))))
                                 (seq 0 n)))
                       (LayersContract.quasi_containers self))
            <= List.length (LayersContract.quasi_containers self) * (n * (n - 1))).
  { pose proof (triangle_sum n 0) as Ht. cbn [Nat.add] in Ht.
    etransitivity.
    - apply Nat.mul_le_mono_l. apply list_sum_le with (g := fun _ =>
        list_sum (map (fun i => n - S i) (seq 0 n))).
      intros container _. apply list_sum_le. intros i _.
      etransitivity; [apply list_sum_le with (g := fun _ => 1);
                      intros j _; apply pair_at_le|].
      rewrite list_sum_const, length_seq. lia.
    - rewrite list_sum_const. nia. }
  split; [exact Hbound|]. split.
  - intros Hn.
    assert (Hz : n * (n - 1) = 0) by (destruct n as [|[|n']]; simpl; lia).
    rewrite Hz, Nat.mul_0_r in Hbound.
    rewrite <- permutations_length in Hbound.
    destruct (LayersContract._generate_module_permutations self graph);
      [reflexivity | simpl in Hbound; lia].
  - intros Hall. pose proof (triangle_sum n 0) as Ht. cbn [Nat.add] in Ht.
    rewrite (list_sum_eq _ _ (fun _ => list_sum (map (fun i => n - S i) (seq 0 n)))).
    + rewrite list_sum_const. nia.
    + intros container Hc. apply list_sum_eq. intros i Hi. apply in_seq in Hi.
      rewrite (list_sum_eq _ _ (fun _ => 1)).
      * rewrite list_sum_const, length_seq. lia.
      * intros j Hj. apply in_seq in Hj. unfold pair_at.
        destruct (nth_error (layers self) i) as [hi|] eqn:Ei;
          [|apply nth_error_None in Ei; fold n in Ei; lia].
        destruct (nth_error (layers self) j) as [lo|] eqn:Ej;
          [|apply nth_error_None in Ej; fold n in Ej; lia].
        cbv zeta.
        assert (Hh : mem (LayersContract._module_from_layer hi container) (modules graph)
                     = true)
          by (apply mem_In, Hall; [exact Hc | eapply nth_error_In; eauto]).
        assert (Hl : mem (LayersContract._module_from_layer lo container) (modules graph)
                     = true)
          by (apply mem_In, Hall; [exact Hc | eapply nth_error_In; eauto]).
        now rewrite Hh, Hl.
Qed.

Lemma permutations_count_witness :
  2 * List.length (LayersContract._generate_module_permutations
                     containerless_contract containerless_graph)
  = 1 * (3 * (3 - 1)).
Proof.
  apply (proj2 (proj2 (permutations_count containerless_contract containerless_graph))).
  intros container layer Hc Hl. vm_compute in Hc.
  destruct Hc as [<-|[]].
  vm_compute in Hl. destruct Hl as [<-|[<-|[<-|[]]]]; vm_compute; tauto.
Defined.

(** ** Removing and squashing a package: what stays *)

Lemma modules_remove_module (d : string) (g : ImportGraph) (m : string) :
  In m (modules (remove_module d g)) <-> In m (modules g) /\ m <> d.
Proof.
  unfold modules, remove_module. cbn [nodes]. rewrite !in_map_iff. split.
  - intros [n [Hn Hin]]. apply filter_In in Hin. destruct Hin as [Hin Hd].
    apply negb_true_iff, String.eqb_neq in Hd. subst m. split; [now exists n | exact Hd].
  - intros [[n [Hn Hin]] Hd]. exists n. split; [exact Hn|].
    apply filter_In. split; [exact Hin|]. apply negb_true_iff, String.eqb_neq. now subst m.
Qed.

Lemma modules_remove_modules (ds : list string) (g : ImportGraph) (m : string) :
  In m (modules (fold_left (fun g0 d => remove_module d g0) ds g))
  <-> In m (modules g) /\ ~ In m ds.
Proof.
  revert g. induction ds as [|d ds IH]; intros g; simpl.
  - tauto.
  - rewrite IH, modules_remove_module. split.
    + intros [[H1 H2] H3]. split; [exact H1|]. intros [->|H]; auto.
    + intros [H1 H2]. repeat split; auto.
Qed.

Lemma details_remove_module (d : string) (g : ImportGraph) (a b : string) :
  a <> d -> b <> d ->
  get_import_details (remove_module d g) a b = get_import_details g a b.
Proof.
  intros Ha Hb. unfold get_import_details, remove_module. cbn [edges].
  induction (edges g) as [|e es IH]; [reflexivity|].
  cbn [filter find]. destruct (edge_is a b e) eqn:Hi.
  - assert (Ht : touches d e = false).
    { unfold edge_is in Hi. apply andb_true_iff in Hi. destruct Hi as [H1 H2].
      apply String.eqb_eq in H1, H2. unfold touches. rewrite H1, H2.
      apply String.eqb_neq in Ha, Hb. now rewrite Ha, Hb. }
    rewrite Ht. cbn [negb find]. now rewrite Hi.
  - destruct (negb (touches d e)); [cbn [find]; now rewrite Hi | exact IH].
Qed.

Lemma details_remove_modules (ds : list string) (g : ImportGraph) (a b : string) :
  ~ In a ds -> ~ In b ds ->
  get_import_details (fold_left (fun g0 d => remove_module d g0) ds g) a b
  = get_import_details g a b.
Proof.
  revert g. induction ds as [|d ds IH]; intros g Ha Hb; simpl; [reflexivity|].
  rewrite IH by (intros H; first [apply Ha; now right | apply Hb; now right]).
  apply details_remove_module; intros ->; [apply Ha | apply Hb]; now left.
Qed.

Lemma member_iff_descendant (g : ImportGraph) (p m : string) :
  In m (modules g) ->
  (In m (p :: find_descendants g p) <-> is_descendant_of m p = true).
Proof.
  intros Hm. split; [apply member_is_descendant|].
  unfold is_descendant_of. intros H. apply orb_true_iff in H. destruct H as [H|H].
  - apply String.eqb_eq in H. now left.
  - right. unfold find_descendants. apply filter_In. now split.
Qed.

Lemma not_prefix_of_itself_dotted (p : string) : startswith p (p ++ ".")%string = false.
Proof.
  unfold startswith. induction p as [|a p IH]; [reflexivity|].
  cbn [String.append String.prefix]. now destruct (ascii_dec a a).
Qed.

Lemma remove_package_fold (p : string) (g : ImportGraph) :
  LayersContract._remove_package p g
  = fold_left (fun g0 d => remove_module d g0) (find_descendants g p) g.
Proof.
  unfold LayersContract._remove_package. cbn [fold_left remove_module_ref].
  generalize (find_descendants g p) as ds. intros ds. revert g.
  induction ds as [|d ds IH]; intros g; [reflexivity|].
  cbn [map fold_left remove_module_ref]. apply IH.
Qed.

Lemma in_find_descendants (g : ImportGraph) (p m : string) :
  In m (find_descendants g p)
  <-> In m (modules g) /\ startswith m (p ++ ".")%string = true.
Proof. unfold find_descendants. rewrite filter_In. reflexivity. Qed.

(** X6.  [_remove_package] removes the descendants of the package and
    nothing else; the package itself, handed to the graph as a [Module]
    object, stays.  A module of the graph stays exactly when it does not
    lie strictly under the package, an import stays exactly when neither
    end is a removed descendant, and the imports that stay keep their
    provenance. *)
Theorem remove_package_removes_the_descendants
        (graph : ImportGraph) (package_name : string) :
  let removed := find_descendants graph package_name in
  let after := LayersContract._remove_package package_name graph in
  (forall m, In m (modules after)
             <-> In m (modules graph)
                 /\ startswith m (package_name ++ ".")%string = false)
  /\ (In package_name (modules graph) -> In package_name (modules after))
  /\ (forall a b, has_import after a b = true
                  <-> has_import graph a b = true /\ ~ In a removed /\ ~ In b removed)
  /\ (forall a b, ~ In a removed -> ~ In b removed ->
                  get_import_details after a b = get_import_details graph a b).
Proof.
  cbv zeta. rewrite remove_package_fold.
  assert (Hm : forall m,
             In m (modules (fold_left (fun g0 d => remove_module d g0)
                                      (find_descendants graph package_name) graph))
             <-> In m (modules graph)
                 /\ startswith m (package_name ++ ".")%string = false).
  { intros m. rewrite modules_remove_modules, in_find_descendants. split.
    - intros [H Hn]. split; [exact H|]. apply not_true_is_false. intros Hs. now apply Hn.
    - intros [H Hs]. split; [exact H|]. intros [_ Ht]. congruence. }
  split; [exact Hm|]. split; [|split].
  - intros Hin. apply Hm. split; [exact Hin | apply not_prefix_of_itself_dotted].
  - intros a b. apply has_import_remove_modules.
  - intros a b. apply details_remove_modules.
Qed.

Lemma remove_package_removes_the_descendants_witness :
  In "pkg.high" (modules (LayersContract._remove_package "pkg.high" packaged_graph))
  /\ ~ In "pkg.high.a"
         (modules (LayersContract._remove_package "pkg.high" packaged_graph)).
Proof.
  destruct (remove_package_removes_the_descendants packaged_graph "pkg.high")
    as [Hm [Hp _]].
  split.
  - apply Hp. vm_compute. tauto.
  - intros H. apply Hm in H. destruct H as [_ H]. vm_compute in H. discriminate H.
Defined.

Lemma modules_add_module (x : string) (f : bool) (g : ImportGraph) (m : string) :
  In m (modules (add_module x f g)) <-> In m (modules g) \/ m = x.
Proof.
  unfold add_module. destruct (mem x (modules g)) eqn:E.
  - apply mem_In in E. split; [auto|]. intros [H| ->]; auto.
  - unfold modules. cbn [nodes]. rewrite map_app, in_app_iff. cbn [map fst In].
    split; intros [H|H]; auto.
    all: try (destruct H as [<-|[]]; now right); try (right; left; now subst).
Qed.

Lemma modules_add_import (a b : string) (o : option Provenance) (g : ImportGraph)
      (m : string) :
  In m (modules (add_import a b o g)) <-> In m (modules g) \/ m = a \/ m = b.
Proof.
  unfold add_import.
  assert (H : In m (modules (add_module b false (add_module a false g)))
              <-> In m (modules g) \/ m = a \/ m = b)
    by (rewrite !modules_add_module; tauto).
  destruct (has_import g a b); unfold modules in *; cbn [nodes]; exact H.
Qed.

Lemma modules_add_importers (p : string) (ms : list string) (g : ImportGraph)
      (m : string) :
  In m (modules (fold_left (fun g0 module => add_import module p None g0) ms g))
  <-> In m (modules g) \/ (ms <> [] /\ (m = p \/ In m ms)).
Proof.
  revert g. induction ms as [|x ms IH]; intros g; simpl.
  - split; [auto|]. intros [H|[H _]]; [exact H | congruence].
  - rewrite IH, modules_add_import. split.
    + intros [[H|[->| ->]]|[_ [->|H]]]; auto; right; (split; [discriminate|]); auto.
    + intros [H|[_ [->|[<-|H]]]]; auto.
      destruct ms as [|y ms']; [contradiction|].
      right. split; [discriminate|]. now right.
Qed.

Lemma modules_add_imported (p : string) (ms : list string) (g : ImportGraph)
      (m : string) :
  In m (modules (fold_left (fun g0 module => add_import p module None g0) ms g))
  <-> In m (modules g) \/ (ms <> [] /\ (m = p \/ In m ms)).
Proof.
  revert g. induction ms as [|x ms IH]; intros g; simpl.
  - split; [auto|]. intros [H|[H _]]; [exact H | congruence].
  - rewrite IH, modules_add_import. split.
    + intros [[H|[->| ->]]|[_ [->|H]]]; auto; right; (split; [discriminate|]); auto.
    + intros [H|[_ [->|[<-|H]]]]; auto.
      destruct ms as [|y ms']; [contradiction|].
      right. split; [discriminate|]. now right.
Qed.


(** X7.  [_squash_package] leaves the rest of the graph alone: an import
    between two modules outside the package is there after the squash
    exactly when it was there before, with the same provenance; every
    module outside the package is still a module; and no descendant of the
    package is a module any more. *)
Theorem squash_leaves_the_rest_alone (graph : ImportGraph) (package_name : string) :
  let members := package_name :: find_descendants graph package_name in
  let squashed := LayersContract._squash_package package_name graph in
  (forall x y, ~ In x members -> ~ In y members ->
               (has_import squashed x y = true <-> has_import graph x y = true)
               /\ get_import_details squashed x y = get_import_details graph x y)
  /\ (forall m, In m (modules graph) -> is_descendant_of m package_name = false ->
                In m (modules squashed))
  /\ (forall d, In d (find_descendants graph package_name) ->
                ~ In d (modules squashed)).
Proof.
  cbv zeta. unfold LayersContract._squash_package. split; [|split].
  - intros x y Hx Hy.
    assert (Hxp : x <> package_name) by (intros ->; apply Hx; now left).
    assert (Hyp : y <> package_name) by (intros ->; apply Hy; now left).
    split.
    + rewrite has_import_add_imported, has_import_add_importers, has_import_add_module,
        squash_fold_graph, has_import_remove_modules.
      cbn [LayersContract.sq_graph]. tauto.
    + rewrite details_add_imported, details_add_importers, details_add_module,
        squash_fold_graph.
      cbn [LayersContract.sq_graph]. now apply details_remove_modules.
  - intros m Hm Hd.
    rewrite modules_add_imported, modules_add_importers, modules_add_module,
      squash_fold_graph, modules_remove_modules.
    cbn [LayersContract.sq_graph]. left. left. left. split; [exact Hm|].
    intros Hin. apply member_is_descendant in Hin. congruence.
  - intros d Hd.
    assert (Hdesc : is_descendant_of d package_name = true)
      by (apply (member_is_descendant graph); now right).
    assert (Hdp : d <> package_name).
    { intros ->. unfold find_descendants in Hd. apply filter_In in Hd.
      destruct Hd as [_ Hd]. rewrite not_prefix_of_itself_dotted in Hd. discriminate. }
    rewrite modules_add_imported, modules_add_importers, modules_add_module,
      squash_fold_graph, modules_remove_modules.
    cbn [LayersContract.sq_graph].
    rewrite squash_fold_importers by apply member_is_descendant.
    rewrite squash_fold_imported by apply member_is_descendant.
    cbn [LayersContract.modules_that_import_package
           LayersContract.modules_imported_by_package].
    intros [[[[_ Hn]|H]|[_ [H|[[]|[H _]]]]]|[_ [H|[[]|[H _]]]]]; try congruence.
    apply Hn. now right.
Qed.

Lemma squash_leaves_the_rest_alone_witness :
  get_import_details (LayersContract._squash_package "c1.low" two_container_graph)
                     "c2.low" "c2.mid"
  = get_import_details two_container_graph "c2.low" "c2.mid".
Proof.
  apply (proj1 (squash_leaves_the_rest_alone two_container_graph "c1.low")).
  - vm_compute. intros H.
    repeat (destruct H as [H|H]; [discriminate H|]). exact H.
  - vm_compute. intros H.
    repeat (destruct H as [H|H]; [discriminate H|]). exact H.
Defined.

(** ** The prune loop with containers *)

Lemma for_each_total {A S : Type} (f : S -> A -> S) (xs : list A) (acc : S) :
  for_each (fun s a => Ok (f s a)) xs acc = Ok (fold_left f xs acc).
Proof.
  revert acc. induction xs as [|x xs IH]; intros acc; [reflexivity|].
  cbn [for_each bind fold_left]. apply IH.
Qed.

Lemma prune_with_first_container (self : LayersContract) (graph : ImportGraph)
      (higher lower c0 : string) (others : list string) :
  containers self = Some (c0 :: others) ->
  LayersContract.prune self graph higher lower
  = Ok (fold_left (prune_step c0 higher lower) (layers self)
                  (LayersContract._squash_package
                     higher (LayersContract._squash_package lower graph))).
Proof.
  intros Hc.
  assert (H0 : LayersContract.containers_0 self = Ok c0)
    by (unfold LayersContract.containers_0; now rewrite Hc).
  unfold LayersContract.prune.
  generalize (LayersContract._squash_package
                higher (LayersContract._squash_package lower graph)).
  induction (layers self) as [|layer ls IH]; intros tg; [reflexivity|].
  cbn [for_each fold_left]. rewrite H0 at 1. cbn [bind].
  unfold prune_step at 2. cbv zeta.
  destruct (negb _); cbn [bind]; apply IH.
Qed.

Lemma prune_step_shrinks (c0 higher lower : string) (tg : ImportGraph) (layer : Layer)
      (m : string) :
  In m (modules (prune_step c0 higher lower tg layer)) -> In m (modules tg).
Proof.
  unfold prune_step. cbv zeta.
  destruct (negb _); [|auto].
  rewrite remove_package_fold, modules_remove_modules. tauto.
Qed.

Lemma prune_steps_shrink (c0 higher lower : string) (ls : list Layer) (tg : ImportGraph)
      (m : string) :
  In m (modules (fold_left (prune_step c0 higher lower) ls tg)) -> In m (modules tg).
Proof.
  revert tg. induction ls as [|l ls IH]; intros tg; [auto|].
  cbn [fold_left]. intros H. apply IH in H. eapply prune_step_shrinks; eauto.
Qed.

Lemma prune_steps_remove (c0 higher lower : string) (ls : list Layer) (tg : ImportGraph)
      (layer : Layer) (d : string) :
  In layer ls ->
  LayersContract._module_from_layer layer (Some c0) <> higher ->
  LayersContract._module_from_layer layer (Some c0) <> lower ->
  startswith d (LayersContract._module_from_layer layer (Some c0) ++ ".")%string = true ->
  ~ In d (modules (fold_left (prune_step c0 higher lower) ls tg)).
Proof.
  intros Hin Hh Hl Hd. revert tg. induction ls as [|l0 ls IH]; intros tg; [contradiction|].
  cbn [fold_left]. destruct Hin as [->|Hin]; [|now apply IH].
  intros H. apply prune_steps_shrink in H. unfold prune_step in H. cbv zeta in H.
  apply String.eqb_neq in Hh, Hl. rewrite Hh, Hl in H. cbn [orb negb] in H.
  rewrite remove_package_fold in H. apply modules_remove_modules in H.
  destruct H as [Hm Hn]. apply Hn. apply in_find_descendants. now split.
Qed.

Lemma prune_steps_keep (c0 higher lower : string) (ls : list Layer) (tg : ImportGraph)
      (x : string) :
  In x (modules tg) ->
  (forall layer,
      In layer ls ->
      LayersContract._module_from_layer layer (Some c0) <> higher ->
      LayersContract._module_from_layer layer (Some c0) <> lower ->
      startswith x (LayersContract._module_from_layer layer (Some c0) ++ ".")%string
      = false) ->
  In x (modules (fold_left (prune_step c0 higher lower) ls tg)).
Proof.
  revert tg. induction ls as [|l0 ls IH]; intros tg Hx Hall; [exact Hx|].
  cbn [fold_left]. apply IH; [|intros layer Hin; apply Hall; now right].
  unfold prune_step. cbv zeta.
  destruct (String.eqb_spec (LayersContract._module_from_layer l0 (Some c0)) higher)
    as [Eh|Nh]; cbn [orb negb]; [exact Hx|].
  destruct (String.eqb_spec (LayersContract._module_from_layer l0 (Some c0)) lower)
    as [El|Nl]; cbn [negb]; [exact Hx|].
  rewrite remove_package_fold, modules_remove_modules. split; [exact Hx|].
  intros Hin. apply in_find_descendants in Hin. destruct Hin as [_ Hs].
  rewrite (Hall l0 (or_introl eq_refl) Nh Nl) in Hs. discriminate.
Qed.

(** X8.  With containers configured the prune loop of [check] never raises
    and only removes modules: it removes every module that lies strictly
    under a layer module of the first container other than the two of the
    pair, and keeps every other module of the squashed copy, the other
    layer modules themselves among them. *)
Theorem prune_removes_descendants_of_other_layers
        (self : LayersContract) (graph : ImportGraph) (higher lower c0 : string)
        (others : list string) :
  containers self = Some (c0 :: others) ->
  exists temp_graph,
    LayersContract.prune self graph higher lower = Ok temp_graph
    /\ (forall m, In m (modules temp_graph) ->
                  In m (modules (LayersContract._squash_package
                                   higher (LayersContract._squash_package lower graph))))
    /\ (forall layer d,
           In layer (layers self) ->
           LayersContract._module_from_layer layer (Some c0) <> higher ->
           LayersContract._module_from_layer layer (Some c0) <> lower ->
           startswith d (LayersContract._module_from_layer layer (Some c0) ++ ".")%string
           = true ->
           ~ In d (modules temp_graph))
    /\ (forall x,
           In x (modules (LayersContract._squash_package
                            higher (LayersContract._squash_package lower graph))) ->
           (forall layer,
               In layer (layers self) ->
               LayersContract._module_from_layer layer (Some c0) <> higher ->
               LayersContract._module_from_layer layer (Some c0) <> lower ->
               startswith x (LayersContract._module_from_layer layer (Some c0) ++ ".")%string
               = false) ->
           In x (modules temp_graph)).
Proof.
  intros Hc. eexists. split; [eapply prune_with_first_container; exact Hc|].
  split; [|split].
  - intros m. apply prune_steps_shrink.
  - intros layer d. apply prune_steps_remove.
  - intros x. apply prune_steps_keep.
Qed.

Lemma prune_removes_descendants_of_other_layers_witness :
  exists temp_graph,
    LayersContract.prune two_container_contract two_container_graph "c1.high" "c1.low"
    = Ok temp_graph
    /\ In "c1.mid" (modules temp_graph).
Proof.
  destruct (prune_removes_descendants_of_other_layers
              two_container_contract two_container_graph "c1.high" "c1.low" "c1" ["c2"]
              eq_refl) as [tg [Hp [_ [_ Hkeep]]]].
  exists tg. split; [exact Hp|].
  apply Hkeep.
  - vm_compute. tauto.
  - intros layer Hin _ _. vm_compute in Hin.
    destruct Hin as [<-|[<-|[<-|[]]]]; vm_compute; reflexivity.
Defined.

(** ** What [check] can return *)

Lemma for_each_invariant {A S : Type} (P : S -> Prop) (body : S -> A -> result S)
      (xs : list A) (acc s : S) :
  P acc ->
  (forall s0 a s1, P s0 -> body s0 a = Ok s1 -> P s1) ->
  for_each body xs acc = Ok s ->
  P s.
Proof.
  intros Hacc Hstep. revert acc Hacc. induction xs as [|x xs IH]; intros acc Hacc.
  - cbn [for_each]. intros H. inversion H. now subst.
  - cbn [for_each]. destruct (body acc x) as [s1|e] eqn:E; cbn [bind]; [|discriminate].
    apply IH. eapply Hstep; eauto.
Qed.

Lemma step_on_paths (graph : ImportGraph) (acc r : list (list pyval))
      (data : list (list string)) :
  data <> [] ->
  LayersContract.specific_chains_step graph acc (LayersContract.paths_as_chain data)
  = Ok r ->
  r = acc ++ [LayersContract.paths_as_chain data]
  /\ exists a b, LayersContract.paths_as_chain data = [PList a; PList b].
Proof.
  intros Hne. destruct data as [|p1 [|p2 [|p3 rest]]]; [contradiction| | |].
  - cbn. discriminate.
  - cbn. intros H. inversion H. split; [reflexivity|]. eauto.
  - cbn. discriminate.
Qed.

Lemma steps_on_paths (graph : ImportGraph) (found : list (list (list string)))
      (acc r : list (list pyval)) :
  Forall (fun data => data <> []) found ->
  for_each (LayersContract.specific_chains_step graph)
           (map LayersContract.paths_as_chain found) acc = Ok r ->
  r = acc ++ map LayersContract.paths_as_chain found
  /\ Forall (fun chain => exists a b, chain = [PList a; PList b])
            (map LayersContract.paths_as_chain found).
Proof.
  intros Hne. revert acc. induction Hne as [|data found Hd Hf IH]; intros acc.
  - cbn. intros H. inversion H. now rewrite app_nil_r.
  - cbn [map for_each].
    destruct (LayersContract.specific_chains_step
                graph acc (LayersContract.paths_as_chain data)) as [r1|e] eqn:E;
      cbn [bind]; [|discriminate].
    destruct (step_on_paths graph acc r1 data Hd E) as [-> Htwo].
    intros H. destruct (IH _ H) as [-> Hall]. split.
    + now rewrite <- app_assoc.
    + now constructor.
Qed.

Lemma convert_raises_on_lists (graph : ImportGraph) (a b : list pyval)
      (rest : list (list pyval)) :
  LayersContract._convert_chains ([PList a; PList b] :: rest) graph = Raise TypeError.
Proof. reflexivity. Qed.

Lemma determine_on_paths (graph : ImportGraph) (found : list (list (list string)))
      (r : list (list ConvertedRecord)) :
  Forall (fun data => data <> []) found ->
  LayersContract._determine_specific_chains
    (map LayersContract.paths_as_chain found) graph = Ok r ->
  found = [] /\ r = [].
Proof.
  intros Hne. unfold LayersContract._determine_specific_chains.
  destruct (for_each (LayersContract.specific_chains_step graph)
                     (map LayersContract.paths_as_chain found) []) as [ics|e] eqn:E;
    cbn [bind]; [|discriminate].
  destruct (steps_on_paths graph found [] ics Hne E) as [-> Hall]. cbn [app].
  destruct found as [|data found]; cbn [map].
  - cbn. intros H. inversion H. now split.
  - inversion Hall as [|c cs [a [b Hab]] _ Heq]. rewrite Hab.
    rewrite convert_raises_on_lists. discriminate.
Qed.

Lemma check_outcome (self : LayersContract) (graph : ImportGraph)
      (outcome : ContractCheck (list (list ConvertedRecord))) :
  snd (LayersContract.check self graph) = Ok outcome ->
  outcome = mkCheck true [].
Proof.
  unfold LayersContract.check.
  destruct (pop_imports graph (or_empty (ignore_imports self))) as [filtered removed].
  cbn [snd].
  match goal with
  | |- bind (for_each ?body ?xs ?acc) _ = _ -> _ =>
      destruct (for_each body xs acc) as [[is_kept found]|e] eqn:E
  end; cbn [bind]; [|discriminate].
  assert (Hinv : (is_kept = true /\ found = [])
                 \/ (found <> [] /\ Forall (fun data => data <> []) found)).
  { revert E.
    apply (for_each_invariant
             (fun st : bool * list (list (list string)) =>
                (fst st = true /\ snd st = [])
                \/ (snd st <> [] /\ Forall (fun data => data <> []) (snd st)))).
    - left. now split.
    - intros [k0 f0] [higher lower] s1 Hs0.
      destruct (LayersContract.prune self filtered higher lower) as [tg|e]; cbn [bind];
        [|discriminate].
      destruct (all_shortest_paths tg lower higher) as [data|e]; cbn [bind];
        [|discriminate].
      destruct data as [|p ps]; intros H; inversion H; subst s1; [exact Hs0|].
      right. cbn [snd]. split; [now destruct f0|].
      apply Forall_app. split.
      + destruct Hs0 as [[_ Hf]|[_ Hf]]; cbn [snd] in Hf; [subst f0; constructor | exact Hf].
      + constructor; [discriminate | constructor]. }
  destruct (LayersContract._determine_specific_chains
              (map LayersContract.paths_as_chain found) filtered) as [ics|e] eqn:D;
    cbn [bind]; [|discriminate].
  intros H. inversion H.
  destruct Hinv as [[-> ->]|[Hne Hall]].
  - cbn in D. inversion D. reflexivity.
  - destruct (determine_on_paths filtered found ics Hall D) as [Hf _]. contradiction.
Qed.

(** X9.  [check] never reports a broken contract: whenever it returns a
    result, the result says [kept] and holds no chain.  As soon as the pair
    loop has found a path, the reconstruction raises. *)
Theorem check_returns_only_kept (self : LayersContract) (graph : ImportGraph)
        (outcome : ContractCheck (list (list ConvertedRecord))) :
  snd (LayersContract.check self graph) = Ok outcome ->
  outcome = mkCheck true [].
Proof. apply check_outcome. Qed.

Lemma check_returns_only_kept_witness :
  snd (LayersContract.check ignoring_contract packaged_graph) = Ok (mkCheck true []).
Proof.
  assert (H : exists outcome,
             snd (LayersContract.check ignoring_contract packaged_graph) = Ok outcome)
    by (eexists; vm_compute; reflexivity).
  destruct H as [outcome H]. rewrite H. f_equal.
  exact (check_returns_only_kept ignoring_contract packaged_graph outcome H).
Defined.



(** ** Chains shorter and longer than two nodes *)

(** X10.  [_determine_specific_chains] returns no chain for no coarse
    chain, and raises [IndexError] when its first coarse chain has fewer
    than two nodes. *)
Theorem short_coarse_chain_raises (graph : ImportGraph) (chain : list pyval)
        (rest : list (list pyval)) :
  LayersContract._determine_specific_chains [] graph = Ok []
  /\ (List.length chain < 2 ->
      LayersContract._determine_specific_chains (chain :: rest) graph = Raise IndexError).
Proof.
  split; [reflexivity|].
  intros H. destruct chain as [|x [|y chain']]; [reflexivity | reflexivity|].
  simpl in H. lia.
Qed.

Lemma short_coarse_chain_raises_witness :
  LayersContract._determine_specific_chains [[PStr "pkg.low"]] packaged_graph
  = Raise IndexError.
Proof.
  apply (proj2 (short_coarse_chain_raises packaged_graph [PStr "pkg.low"] [])).
  simpl. lia.
Defined.

Lemma all_imports_cons (graph : ImportGraph) (x y : string) (l : list string) :
  all_imports graph (x :: y :: l) = has_import graph x y && all_imports graph (y :: l).
Proof. reflexivity. Qed.

(** X11.  A coarse chain of exactly two module names is reported as it is:
    one chain with one record that names the two nodes, with the line
    numbers of the import between them when the graph has one and with
    none otherwise, as for two packages of which only inner modules import
    each other. *)
Theorem coarse_chain_of_two_is_reported_as_is
        (graph : ImportGraph) (lower higher : string) :
  LayersContract._determine_specific_chains [[PStr lower; PStr higher]] graph
  = Ok [[mkConverted lower (PStr higher)
                     (map line_number (get_import_details graph lower higher))]]
  /\ (has_import graph lower higher = false ->
      LayersContract._determine_specific_chains [[PStr lower; PStr higher]] graph
      = Ok [[mkConverted lower (PStr higher) []]]).
Proof.
  split; [reflexivity|].
  intros H. cbn. now rewrite (details_none_without_import graph lower higher H).
Qed.

Lemma coarse_chain_of_two_is_reported_as_is_witness :
  LayersContract._determine_specific_chains [[PStr "pkg.low"; PStr "pkg.high"]]
                                            packaged_graph
  = Ok [[mkConverted "pkg.low" (PStr "pkg.high") []]].
Proof.
  exact (proj2 (coarse_chain_of_two_is_reported_as_is packaged_graph "pkg.low" "pkg.high")
               eq_refl).
Defined.

(** ** The reporting shape *)

Lemma nth_error_combine {A B : Type} (l : list A) (l' : list B) (k : nat) (a : A) (b : B) :
  nth_error (combine l l') k = Some (a, b) ->
  nth_error l k = Some a /\ nth_error l' k = Some b.
Proof.
  revert l' k. induction l as [|x l IH]; intros l' k; [destruct k; discriminate|].
  destruct l' as [|y l']; [destruct k; discriminate|].
  destruct k as [|k]; cbn [combine nth_error].
  - intros H. inversion H. now split.
  - apply IH.
Qed.

Lemma nth_error_tl {A : Type} (l : list A) (k : nat) :
  nth_error (tl l) k = nth_error l (S k).
Proof. destruct l; [now destruct k | reflexivity]. Qed.

Lemma converted_records_length (graph : ImportGraph) (chain : list string) :
  List.length (converted_records graph chain) = List.length chain - 1.
Proof.
  unfold converted_records, consecutive_pairs. rewrite length_map, length_combine.
  destruct chain as [|x chain]; [reflexivity|]. cbn [tl List.length]. lia.
Qed.

Lemma convert_names (graph : ImportGraph) (chains : list (list string)) :
  LayersContract._convert_chains (map (map PStr) chains) graph
  = Ok (map (converted_records graph) chains).
Proof.
  unfold LayersContract._convert_chains.
  induction chains as [|c cs IH]; [reflexivity|].
  cbn [map map_result].
  assert (H : forall ps : list (string * string),
             map_result
               (fun ii : pyval * pyval =>
                  a <- as_module_name (fst ii) ;;
                  Ok (mkConverted a (snd ii)
                                  (map line_number (get_import_details_of graph a (snd ii)))))
               (map (fun ab => (PStr (fst ab), PStr (snd ab))) ps)
             = Ok (map (fun ii => mkConverted (fst ii) (PStr (snd ii))
                                   (map line_number
                                        (get_import_details graph (fst ii) (snd ii))))
                       ps)).
  { induction ps as [|[a b] ps IHp]; [reflexivity|].
    cbn [map map_result]. rewrite IHp. reflexivity. }
  assert (Hp : consecutive_pairs (map PStr c)
               = map (fun ab => (PStr (fst ab), PStr (snd ab))) (consecutive_pairs c)).
  { unfold consecutive_pairs. destruct c as [|x xs]; [reflexivity|].
    cbn [tl map]. revert x. induction xs as [|y ys IHy]; intros x; [reflexivity|].
    cbn [map combine fst snd]. f_equal. apply IHy. }
  rewrite Hp, H. cbn [bind]. rewrite IH. reflexivity.
Qed.

Lemma map_result_raises {A B : Type} (f : A -> result B) (xs : list A) (e : exn) :
  (forall x, In x xs -> (exists y, f x = Ok y) \/ f x = Raise e) ->
  (exists x, In x xs /\ f x = Raise e) ->
  map_result f xs = Raise e.
Proof.
  induction xs as [|x xs IH]; intros Hall [x0 [Hin Hx0]]; [contradiction|].
  cbn [map_result].
  destruct (Hall x (or_introl eq_refl)) as [[y Hy]|Hr]; [|now rewrite Hr].
  rewrite Hy. cbn [bind]. rewrite IH; [reflexivity| |].
  - intros z Hz. apply Hall. now right.
  - destruct Hin as [->|Hin]; [congruence|]. now exists x0.
Qed.

Lemma importer_in_consecutive (chain : list pyval) (k : nat) (v : pyval) :
  nth_error chain k = Some v -> S k < List.length chain ->
  exists w, In (v, w) (consecutive_pairs chain).
Proof.
  unfold consecutive_pairs. revert k.
  induction chain as [|x chain IH]; intros k Hk Hlen; [destruct k; discriminate|].
  destruct chain as [|y chain']; [simpl in Hlen; lia|].
  cbn [tl combine]. destruct k as [|k].
  - inversion Hk; subst x. exists y. now left.
  - cbn [nth_error] in Hk. destruct (IH k Hk ltac:(simpl in *; lia)) as [w Hw].
    exists w. right. exact Hw.
Qed.

(** X12.  [_convert_chains] turns a chain of [n] module names into the
    [n - 1] records of its neighbouring pairs, in order, each with the line
    numbers the graph has for the pair (none when the graph has no such
    import); a chain of one name or none gives no record.  A list in a
    place where it is the importer of a pair raises [TypeError]; a list in
    the last place of a chain only gives a record without line numbers. *)
Theorem convert_chains_shape (graph : ImportGraph) :
  (forall chains,
      LayersContract._convert_chains (map (map PStr) chains) graph
      = Ok (map (converted_records graph) chains))
  /\ (forall chain,
         List.length (converted_records graph chain) = List.length chain - 1)
  /\ (forall chain k record,
         nth_error (converted_records graph chain) k = Some record ->
         nth_error chain k = Some (converted_importer record)
         /\ exists imported_name,
             nth_error chain (S k) = Some imported_name
             /\ converted_imported record = PStr imported_name
             /\ converted_line_numbers record
                = map line_number
                      (get_import_details graph (converted_importer record)
                                          imported_name))
  /\ (forall chains chain k items,
         In chain chains -> nth_error chain k = Some (PList items) ->
         S k < List.length chain ->
         LayersContract._convert_chains chains graph = Raise TypeError)
  /\ (forall importer_name items,
         LayersContract._convert_chains [[PStr importer_name; PList items]] graph
         = Ok [[mkConverted importer_name (PList items) []]]).
Proof.
  split; [apply convert_names|]. split; [apply converted_records_length|].
  split; [|split; [|reflexivity]].
  - intros chain k record H. unfold converted_records in H. rewrite nth_error_map in H.
    destruct (nth_error (consecutive_pairs chain) k) as [[a b]|] eqn:E; [|discriminate].
    inversion H; subst record.
    cbn [converted_importer converted_imported converted_line_numbers fst snd].
    unfold consecutive_pairs in E. apply nth_error_combine in E.
    destruct E as [Ea Eb]. rewrite nth_error_tl in Eb.
    split; [exact Ea|]. exists b. auto.
  - intros chains chain k items Hin Hk Hlen.
    unfold LayersContract._convert_chains.
    assert (Hinner : forall c : list pyval,
               (exists y,
                   map_result
                     (fun ii : pyval * pyval =>
                        a <- as_module_name (fst ii) ;;
                        Ok (mkConverted
                              a (snd ii)
                              (map line_number (get_import_details_of graph a (snd ii)))))
                     (consecutive_pairs c) = Ok y)
               \/ map_result
                    (fun ii : pyval * pyval =>
                       a <- as_module_name (fst ii) ;;
                       Ok (mkConverted
                             a (snd ii)
                             (map line_number (get_import_details_of graph a (snd ii)))))
                    (consecutive_pairs c) = Raise TypeError).
    { intros c. induction (consecutive_pairs c) as [|[a b] ps IH]; [left; now eexists|].
      cbn [map_result fst snd].
      destruct a as [sa|la]; [|now right].
      cbn [as_module_name bind].
      destruct IH as [[y Hy]|Hr]; [left; rewrite Hy; now eexists | right; now rewrite Hr]. }
    apply map_result_raises; [intros c _; apply Hinner|].
    exists chain. split; [exact Hin|].
    destruct (importer_in_consecutive chain k (PList items) Hk Hlen) as [w Hw].
    apply map_result_raises.
    + intros [x y] _. cbn [fst snd].
      destruct x as [sx|lx]; [|now right]. left. now eexists.
    + exists (PList items, w). split; [exact Hw | reflexivity].
Qed.

Lemma convert_chains_shape_witness :
  LayersContract._convert_chains [[PList []; PStr "pkg.high.a"]] packaged_graph
  = Raise TypeError.
Proof.
  apply (proj1 (proj2 (proj2 (proj2 (convert_chains_shape packaged_graph))))
               _ [PList []; PStr "pkg.high.a"] 0 []).
  - now left.
  - reflexivity.
  - simpl. lia.
Defined.

(** ** The chains of [_alt_check] *)

Lemma walks_sound (g : ImportGraph) (k : nat) (s t : string) (path : list string) :
  In path (walks g k s t) ->
  hd "" path = s /\ last path "" = t /\ all_imports g path = true
  /\ List.length path = S k.
Proof.
  revert s path. induction k as [|k IH]; intros s path; cbn [walks].
  - destruct (String.eqb_spec s t) as [->|Hne]; [|contradiction].
    intros [<-|[]]. repeat split.
  - intros H. apply in_flat_map in H. destruct H as [next [Hnext H]].
    apply in_map_iff in H. destruct H as [p' [<- Hp']].
    destruct (IH next p' Hp') as [Hhd [Hlast [Hall Hlen]]].
    destruct p' as [|n0 p'']; [discriminate|]. cbn [hd] in Hhd. subst n0.
    split; [reflexivity|]. split; [exact Hlast|]. split.
    + rewrite all_imports_cons, Hall. apply imported_In in Hnext. now rewrite Hnext.
    + cbn [List.length] in *. lia.
Qed.

Lemma shortest_from_walks (g : ImportGraph) (s t : string) (fuel k : nat)
      (path : list string) :
  In path (shortest_from g s t fuel k) -> exists k', In path (walks g k' s t).
Proof.
  revert k. induction fuel as [|fuel IH]; intros k; cbn [shortest_from]; [contradiction|].
  destruct (walks g k s t) as [|w ws] eqn:E; [apply IH|].
  intros H. exists k. now rewrite E.
Qed.

Lemma find_shortest_chains_sound (g : ImportGraph) (a b : string) (path : list string) :
  In path (find_shortest_chains g a b) ->
  hd "" path = a /\ last path "" = b /\ all_imports g path = true.
Proof.
  unfold find_shortest_chains, shortest_paths.
  destruct (mem a (modules g) && mem b (modules g)); [|contradiction].
  intros H. apply shortest_from_walks in H. destruct H as [k H].
  apply walks_sound in H. tauto.
Qed.

(** X13.  The data that [_build_layer_chain_data] builds for a pair names
    the two layers, has no chain exactly when the graph has no chain from
    the lower to the higher module, and otherwise holds, for each chain
    found, the records of a path that starts at the lower module and ends
    at the higher one; every record is an import of the graph with its
    line numbers. *)
Theorem build_layer_chain_data_reports_imports
        (higher lower : string) (graph : ImportGraph) :
  let data := LayersContract._build_layer_chain_data higher lower graph in
  higher_layer data = higher
  /\ lower_layer data = lower
  /\ (chains data = [] <-> find_shortest_chains graph lower higher = [])
  /\ forall chain, In chain (chains data) ->
       exists path,
         chain = records_of graph path
         /\ hd "" path = lower /\ last path "" = higher
         /\ forall record, In record chain ->
              has_import graph (importer record) (imported record) = true
              /\ line_numbers record
                 = map line_number
                       (get_import_details graph (importer record) (imported record)).
Proof.
  cbv zeta. unfold LayersContract._build_layer_chain_data.
  cbn [higher_layer lower_layer chains].
  split; [reflexivity|]. split; [reflexivity|]. split.
  - destruct (find_shortest_chains graph lower higher); cbn [map];
      split; congruence.
  - intros chain Hin. apply in_map_iff in Hin. destruct Hin as [path [<- Hpath]].
    exists path. split; [reflexivity|].
    destruct (find_shortest_chains_sound graph lower higher path Hpath)
      as [Hhd [Hlast Hall]].
    split; [exact Hhd|]. split; [exact Hlast|].
    intros record Hr. apply in_map_iff in Hr. destruct Hr as [[a b] [<- Hab]].
    cbn [importer imported line_numbers fst snd]. split; [|reflexivity].
    unfold all_imports in Hall. rewrite forallb_forall in Hall. exact (Hall (a, b) Hab).
Qed.

(** ** The ignore filter around the checks *)

Lemma edge_is_both (a b x y : string) (e : Edge) :
  edge_is a b e = true -> edge_is x y e = String.eqb a x && String.eqb b y.
Proof.
  unfold edge_is. intros H. apply andb_true_iff in H. destruct H as [H1 H2].
  apply String.eqb_eq in H1, H2. now rewrite H1, H2.
Qed.

Lemma details_remove_import (a b : string) (g : ImportGraph) (x y : string) :
  get_import_details (remove_import a b g) x y
  = if String.eqb a x && String.eqb b y then [] else get_import_details g x y.
Proof.
  unfold get_import_details, remove_import. cbn [edges].
  induction (edges g) as [|e es IH]; [now destruct (_ && _)|].
  cbn [filter find]. destruct (edge_is a b e) eqn:Hab; cbn [negb].
  - rewrite IH. rewrite (edge_is_both a b x y e Hab).
    now destruct (String.eqb a x && String.eqb b y).
  - cbn [find]. destruct (edge_is x y e) eqn:Hxy; [|exact IH].
    destruct (String.eqb a x && String.eqb b y) eqn:C; [|reflexivity].
    apply andb_true_iff in C. destruct C as [C1 C2]. apply String.eqb_eq in C1, C2.
    subst x y. congruence.
Qed.

Lemma details_add_import_some (a b : string) (p : Provenance) (g : ImportGraph)
      (x y : string) :
  get_import_details (add_import a b (Some p) g) x y
  = get_import_details g x y ++ (if String.eqb a x && String.eqb b y then [p] else []).
Proof.
  unfold add_import, get_import_details. destruct (has_import g a b) eqn:Hab.
  - cbn [edges]. rewrite !edges_add_module. unfold has_import in Hab.
    destruct (String.eqb a x && String.eqb b y) eqn:C.
    + apply andb_true_iff in C. destruct C as [C1 C2]. apply String.eqb_eq in C1, C2.
      subst x y. induction (edges g) as [|e es IH]; [discriminate|].
      cbn [map find existsb] in *. destruct (edge_is a b e) eqn:Hi.
      * rewrite (edge_is_rebuilt a b a b e _ Hi), Hi. reflexivity.
      * rewrite Hi. cbn [orb] in Hab. now apply IH.
    + rewrite app_nil_r. clear Hab. induction (edges g) as [|e es IH]; [reflexivity|].
      cbn [map find]. destruct (edge_is a b e) eqn:Hi.
      * rewrite (edge_is_rebuilt a b x y e _ Hi), (edge_is_both a b x y e Hi), C.
        exact IH.
      * destruct (edge_is x y e); [reflexivity | exact IH].
  - cbn [edges]. rewrite !edges_add_module, find_snoc.
    destruct (find (edge_is x y) (edges g)) as [r|] eqn:F.
    + apply find_some in F. destruct F as [Hin Hr].
      destruct (String.eqb a x && String.eqb b y) eqn:C; [|now rewrite app_nil_r].
      apply andb_true_iff in C. destruct C as [C1 C2]. apply String.eqb_eq in C1, C2.
      subst x y. unfold has_import in Hab.
      assert (existsb (edge_is a b) (edges g) = true)
        by (apply existsb_exists; now exists r).
      congruence.
    + unfold edge_is at 1. cbn [edge_importer edge_imported].
      now destruct (String.eqb a x && String.eqb b y).
Qed.

Lemma details_restore_edge (a b : string) (ps : list Provenance) (g : ImportGraph)
      (x y : string) :
  get_import_details
    (fold_left (fun g1 p => add_import a b (Some p) g1) ps g) x y
  = get_import_details g x y ++ (if String.eqb a x && String.eqb b y then ps else []).
Proof.
  revert g. induction ps as [|p ps IH]; intros g; cbn [fold_left].
  - destruct (_ && _); now rewrite app_nil_r.
  - rewrite IH, details_add_import_some.
    destruct (String.eqb a x && String.eqb b y); rewrite <- app_assoc; reflexivity.
Qed.

Lemma details_add_imports (removed : list Edge) (g : ImportGraph) (x y : string) :
  get_import_details (add_imports g removed) x y
  = get_import_details g x y
    ++ flat_map (fun e => if edge_is x y e then edge_details e else []) removed.
Proof.
  unfold add_imports. revert g. induction removed as [|e es IH]; intros g;
    cbn [fold_left flat_map].
  - now rewrite app_nil_r.
  - rewrite IH, details_restore_edge. unfold edge_is. now rewrite <- app_assoc.
Qed.

Lemma pop_imports_acc (imports : list (string * string)) (g : ImportGraph)
      (acc : list Edge) :
  fold_left
    (fun st i =>
       let '(a, b) := i in
       (remove_import a b (fst st),
        snd st ++ [mkEdge a b (get_import_details (fst st) a b)]))
    imports (g, acc)
  = (fst (pop_imports g imports), acc ++ snd (pop_imports g imports)).
Proof.
  unfold pop_imports. revert g acc. induction imports as [|[a b] rest IH]; intros g acc.
  - cbn. now rewrite app_nil_r.
  - cbn [fold_left fst snd]. rewrite IH. rewrite (IH _ ([] ++ _)).
    cbn [fst snd app]. now rewrite <- app_assoc.
Qed.

Lemma pop_imports_cons (a b : string) (rest : list (string * string)) (g : ImportGraph) :
  pop_imports g ((a, b) :: rest)
  = (fst (pop_imports (remove_import a b g) rest),
     mkEdge a b (get_import_details g a b) :: snd (pop_imports (remove_import a b g) rest)).
Proof.
  unfold pop_imports at 1. cbn [fold_left fst snd]. now rewrite pop_imports_acc.
Qed.

Lemma pop_imports_nodes (imports : list (string * string)) (g : ImportGraph) :
  nodes (fst (pop_imports g imports)) = nodes g.
Proof.
  revert g. induction imports as [|[a b] rest IH]; intros g; [reflexivity|].
  rewrite pop_imports_cons. cbn [fst]. now rewrite IH.
Qed.

Lemma pop_imports_details (imports : list (string * string)) (g : ImportGraph)
      (x y : string) :
  get_import_details (fst (pop_imports g imports)) x y
  = if is_ignored imports x y then [] else get_import_details g x y.
Proof.
  revert g. induction imports as [|[a b] rest IH]; intros g; [reflexivity|].
  rewrite pop_imports_cons. cbn [fst]. rewrite IH, details_remove_import.
  unfold is_ignored. cbn [existsb fst snd].
  destruct (String.eqb a x && String.eqb b y); cbn [orb]; [|reflexivity].
  now destruct (existsb _ rest).
Qed.

Lemma pop_imports_captured (imports : list (string * string)) (g : ImportGraph)
      (x y : string) :
  flat_map (fun e => if edge_is x y e then edge_details e else [])
           (snd (pop_imports g imports))
  = if is_ignored imports x y then get_import_details g x y else [].
Proof.
  revert g. induction imports as [|[a b] rest IH]; intros g; [reflexivity|].
  rewrite pop_imports_cons. cbn [snd flat_map]. rewrite IH, details_remove_import.
  unfold is_ignored, edge_is. cbn [existsb fst snd edge_importer edge_imported edge_details].
  destruct (String.eqb a x && String.eqb b y) eqn:C; cbn [orb app].
  - apply andb_true_iff in C. destruct C as [C1 C2]. apply String.eqb_eq in C1, C2.
    subst x y. destruct (existsb _ rest); now rewrite app_nil_r.
  - reflexivity.
Qed.

Lemma pop_then_add_details (imports : list (string * string)) (g : ImportGraph)
      (x y : string) :
  get_import_details
    (add_imports (fst (pop_imports g imports)) (snd (pop_imports g imports))) x y
  = get_import_details g x y.
Proof.
  rewrite details_add_imports, pop_imports_details, pop_imports_captured.
  destruct (is_ignored imports x y); [reflexivity | apply app_nil_r].
Qed.

Lemma alt_check_loop (graph : ImportGraph) (pairs : list (string * string))
      (is_kept : bool) (found : list LayerChainData) :
  let collected :=
    filter (fun data => match chains data with [] => false | _ => true end)
           (map (fun pair =>
                   LayersContract._build_layer_chain_data (fst pair) (snd pair) graph)
                pairs) in
  fold_left
    (fun st pair =>
       let '(is_kept, invalid_chains) := st in
       let '(higher_layer_package, lower_layer_package) := pair in
       let layer_chain_data :=
         LayersContract._build_layer_chain_data
           higher_layer_package lower_layer_package graph in
       match chains layer_chain_data with
       | [] => (is_kept, invalid_chains)
       | _ => (false, invalid_chains ++ [layer_chain_data])
       end)
    pairs (is_kept, found)
  = (match collected with [] => is_kept | _ => false end, found ++ collected).
Proof.
  cbv zeta. revert is_kept found. induction pairs as [|[h l] pairs IH];
    intros is_kept found.
  - cbn. now rewrite app_nil_r.
  - cbn [fold_left map filter fst snd].
    destruct (chains (LayersContract._build_layer_chain_data h l graph)) eqn:E.
    + apply IH.
    + rewrite IH, <- app_assoc. cbn [app]. f_equal.
      now destruct (filter _ _).
Qed.

Lemma alt_check_outcome (self : LayersContract) (graph : ImportGraph)
      (outcome : ContractCheck (list LayerChainData)) :
  snd (LayersContract._alt_check self graph) = Ok outcome ->
  let filtered := fst (pop_imports graph (or_empty (ignore_imports self))) in
  LayersContract._alt_check self graph
  = (add_imports filtered (snd (pop_imports graph (or_empty (ignore_imports self)))),
     Ok outcome)
  /\ outcome
     = mkCheck (match pairs_with_chains self filtered with [] => true | _ => false end)
               (pairs_with_chains self filtered).
Proof.
  unfold LayersContract._alt_check.
  destruct (pop_imports graph (or_empty (ignore_imports self))) as [filtered removed].
  cbn [fst snd].
  destruct (match or_empty (containers self) with
            | [] => LayersContract._check_all_containerless_layers_exist self filtered
            | _ :: _ => LayersContract._validate_containers self filtered
            end) as [u|e]; cbn [snd]; [|discriminate].
  rewrite alt_check_loop. cbn [fst snd app]. intros H. inversion H.
  split; reflexivity.
Qed.

(** X14.  When [_alt_check] returns a result, the chains it reports are the
    data of exactly the yielded pairs that have a chain in the filtered
    graph, in the order of the enumerator, and the contract is kept exactly
    when there is none. *)
Theorem alt_check_reports_the_pairs_with_chains
        (self : LayersContract) (graph : ImportGraph)
        (outcome : ContractCheck (list LayerChainData)) :
  snd (LayersContract._alt_check self graph) = Ok outcome ->
  let filtered := fst (pop_imports graph (or_empty (ignore_imports self))) in
  invalid_chains outcome = pairs_with_chains self filtered
  /\ (kept outcome = true <-> invalid_chains outcome = [])
  /\ forall data, In data (invalid_chains outcome) ->
       chains data <> []
       /\ In (higher_layer data, lower_layer data)
             (LayersContract._generate_module_permutations self filtered).
Proof.
  intros H. cbv zeta. destruct (alt_check_outcome self graph outcome H) as [_ ->].
  cbn [kept invalid_chains]. split; [reflexivity|]. split.
  - destruct (pairs_with_chains self _); split; congruence.
  - intros data Hin. unfold pairs_with_chains in Hin. apply filter_In in Hin.
    destruct Hin as [Hin Hne]. split; [now destruct (chains data)|].
    apply in_map_iff in Hin. destruct Hin as [[h l] [<- Hp]]. exact Hp.
Qed.

Lemma alt_check_reports_the_pairs_with_chains_witness :
  exists outcome,
    snd (LayersContract._alt_check packaged_contract packaged_graph) = Ok outcome
    /\ (kept outcome = true <-> invalid_chains outcome = []).
Proof.
  assert (H : exists outcome,
             snd (LayersContract._alt_check packaged_contract packaged_graph) = Ok outcome)
    by (eexists; vm_compute; reflexivity).
  destruct H as [outcome H]. exists outcome. split; [exact H|].
  exact (proj1 (proj2 (alt_check_reports_the_pairs_with_chains
                         packaged_contract packaged_graph outcome H))).
Defined.

(** X15.  [_alt_check] gives the ignored imports back when it returns a
    result: every provenance query on the graph answers as before the
    check.  When its validation raises, the error is passed on and the
    ignored imports stay out of the graph. *)
Theorem alt_check_restores_provenance (self : LayersContract) (graph : ImportGraph) :
  (forall outcome,
      snd (LayersContract._alt_check self graph) = Ok outcome ->
      forall x y,
        get_import_details (fst (LayersContract._alt_check self graph)) x y
        = get_import_details graph x y)
  /\ (forall e,
         snd (LayersContract._alt_check self graph) = Raise e ->
         forall x y,
           get_import_details (fst (LayersContract._alt_check self graph)) x y
           = if is_ignored (or_empty (ignore_imports self)) x y then []
             else get_import_details graph x y).
Proof.
  split.
  - intros outcome H x y. destruct (alt_check_outcome self graph outcome H) as [-> _].
    cbn [fst]. apply pop_then_add_details.
  - intros e H x y. rewrite <- pop_imports_details.
    unfold LayersContract._alt_check in *.
    destruct (pop_imports graph (or_empty (ignore_imports self))) as [filtered removed].
    cbn [fst snd] in *.
    destruct (match or_empty (containers self) with
              | [] => LayersContract._check_all_containerless_layers_exist self filtered
              | _ :: _ => LayersContract._validate_containers self filtered
              end) as [u|e']; [|reflexivity].
    destruct (fold_left _ _ _). cbn [snd] in H. discriminate.
Qed.

Lemma alt_check_restores_provenance_witness :
  get_import_details (fst (LayersContract._alt_check ignoring_contract packaged_graph))
                     "pkg.low.b" "pkg.high.a"
  = get_import_details packaged_graph "pkg.low.b" "pkg.high.a".
Proof.
  assert (H : exists outcome,
             snd (LayersContract._alt_check ignoring_contract packaged_graph) = Ok outcome)
    by (eexists; vm_compute; reflexivity).
  destruct H as [outcome H].
  exact (proj1 (alt_check_restores_provenance ignoring_contract packaged_graph)
               outcome H "pkg.low.b" "pkg.high.a").
Defined.

(** X16.  What [check] does to the caller's graph, on every exit: the
    modules and their flags are untouched, the ignored pairs have no
    provenance left, and every other pair has the provenance it had. *)
Theorem check_removes_exactly_the_ignored_imports
        (self : LayersContract) (graph : ImportGraph) :
  nodes (fst (LayersContract.check self graph)) = nodes graph
  /\ forall x y,
      get_import_details (fst (LayersContract.check self graph)) x y
      = if is_ignored (or_empty (ignore_imports self)) x y then []
        else get_import_details graph x y.
Proof.
  rewrite check_returns_filtered_graph. split.
  - apply pop_imports_nodes.
  - intros x y. apply pop_imports_details.
Qed.

(** ** The renderers *)

Lemma render_chain_rest (others : list ImportRecord) (out : list output_event) :
  fold_left
    (fun st direct_import =>
       let '(first_line, out) := st in
       if first_line : bool then
         (false,
          out ++ [print_error ("-   " ++ LayersContract.import_string direct_import)%string
                              false])
       else
         (first_line,
          out ++ [indent_cursor;
                  print_error (LayersContract.import_string direct_import) false]))
    others (false, out)
  = (false,
     out ++ flat_map
              (fun direct_import =>
                 [indent_cursor;
                  print_error (LayersContract.import_string direct_import) false])
              others).
Proof.
  revert out. induction others as [|r rs IH]; intros out; cbn [fold_left flat_map].
  - now rewrite app_nil_r.
  - rewrite IH, <- app_assoc. reflexivity.
Qed.

Lemma render_chain_lines (chain : list ImportRecord) :
  LayersContract.render_chain chain = chain_lines chain.
Proof.
  unfold LayersContract.render_chain. destruct chain as [|r rs]; [reflexivity|].
  cbn [fold_left]. rewrite render_chain_rest. reflexivity.
Qed.

Lemma count_app (test : output_event -> bool) (xs ys : list output_event) :
  count test (xs ++ ys) = count test xs + count test ys.
Proof. unfold count. now rewrite filter_app, length_app. Qed.

Lemma count_flat_map {A : Type} (test : output_event -> bool)
      (f : A -> list output_event) (xs : list A) :
  count test (flat_map f xs) = list_sum (map (fun x => count test (f x)) xs).
Proof.
  induction xs as [|x xs IH]; [reflexivity|].
  cbn [flat_map map]. rewrite count_app, IH. reflexivity.
Qed.

Lemma chain_lines_counts (chain : list ImportRecord) :
  count is_print_error (chain_lines chain) = List.length chain
  /\ count is_new_line (chain_lines chain) = 0
  /\ count is_print (chain_lines chain) = 0.
Proof.
  destruct chain as [|r rs]; [repeat split|].
  unfold chain_lines, count. cbn [filter is_print_error is_new_line is_print List.length].
  fold (count is_print_error
          (flat_map (fun d => [indent_cursor;
                               print_error (LayersContract.import_string d) false]) rs)).
  fold (count is_new_line
          (flat_map (fun d => [indent_cursor;
                               print_error (LayersContract.import_string d) false]) rs)).
  fold (count is_print
          (flat_map (fun d => [indent_cursor;
                               print_error (LayersContract.import_string d) false]) rs)).
  rewrite !count_flat_map. unfold count.
  cbn [filter is_print_error is_new_line is_print List.length].
  rewrite !list_sum_const. repeat split; lia.
Qed.

(** X17.  [render_broken_contract] prints every chain as one error line per
    record, the first one behind the marker and each later one behind an
    indentation of the cursor, and ends every chain with one new line: as
    many error lines as records, as many new lines as chains. *)
Theorem render_broken_contract_lines
        (check : ContractCheck (list (list ImportRecord))) :
  LayersContract.render_broken_contract check
  = flat_map (fun chain => chain_lines chain ++ [new_line]) (invalid_chains check)
  /\ count is_print_error (LayersContract.render_broken_contract check)
     = list_sum (map (@List.length ImportRecord) (invalid_chains check))
  /\ count is_new_line (LayersContract.render_broken_contract check)
     = List.length (invalid_chains check).
Proof.
  assert (H : LayersContract.render_broken_contract check
              = flat_map (fun chain => chain_lines chain ++ [new_line])
                         (invalid_chains check)).
  { unfold LayersContract.render_broken_contract. apply flat_map_ext.
    intros chain. now rewrite render_chain_lines. }
  split; [exact H|]. rewrite H, !count_flat_map. split.
  - apply list_sum_eq. intros chain _. rewrite count_app.
    destruct (chain_lines_counts chain) as [-> _]. cbn. lia.
  - rewrite <- (Nat.mul_1_l (List.length (invalid_chains check))), <- list_sum_const.
    apply list_sum_eq. intros chain _. rewrite count_app.
    destruct (chain_lines_counts chain) as [_ [-> _]]. reflexivity.
Qed.

(** X18.  [old_render_broken_contract] prints, for every reported pair of
    layers, the sentence that the lower layer is not allowed to import the
    higher one and a new line, then its chains like
    [render_broken_contract], then one more new line: one sentence per
    pair, as many error lines as records, and two new lines per pair plus
    one per chain. *)
Theorem old_render_broken_contract_lines
        (check : ContractCheck (list LayerChainData)) :
  LayersContract.old_render_broken_contract check
  = flat_map
      (fun data =>
         [print (lower_layer data ++ " is not allowed to import "
                   ++ higher_layer data ++ ":")%string;
          new_line]
         ++ flat_map (fun chain => chain_lines chain ++ [new_line]) (chains data)
         ++ [new_line])
      (invalid_chains check)
  /\ count is_print (LayersContract.old_render_broken_contract check)
     = List.length (invalid_chains check)
  /\ count is_print_error (LayersContract.old_render_broken_contract check)
     = list_sum (map (fun data => list_sum (map (@List.length ImportRecord) (chains data)))
                     (invalid_chains check))
  /\ count is_new_line (LayersContract.old_render_broken_contract check)
     = list_sum (map (fun data => 2 + List.length (chains data)) (invalid_chains check)).
Proof.
  assert (H : LayersContract.old_render_broken_contract check
              = flat_map
                  (fun data =>
                     [print (lower_layer data ++ " is not allowed to import "
                               ++ higher_layer data ++ ":")%string;
                      new_line]
                     ++ flat_map (fun chain => chain_lines chain ++ [new_line])
                                 (chains data)
                     ++ [new_line])
                  (invalid_chains check)).
  { unfold LayersContract.old_render_broken_contract. apply flat_map_ext.
    intros data. f_equal. f_equal. apply flat_map_ext.
    intros chain. now rewrite render_chain_lines. }
  assert (Hpe : forall cs : list (list ImportRecord),
             count is_print_error
                   (flat_map (fun chain => chain_lines chain ++ [new_line]) cs)
             = list_sum (map (@List.length ImportRecord) cs)).
  { intros cs. rewrite count_flat_map. apply list_sum_eq. intros chain _.
    rewrite count_app. destruct (chain_lines_counts chain) as [-> _]. cbn. lia. }
  assert (Hnl : forall cs : list (list ImportRecord),
             count is_new_line
                   (flat_map (fun chain => chain_lines chain ++ [new_line]) cs)
             = List.length cs).
  { intros cs. rewrite count_flat_map.
    rewrite <- (Nat.mul_1_l (List.length cs)), <- list_sum_const.
    apply list_sum_eq. intros chain _. rewrite count_app.
    destruct (chain_lines_counts chain) as [_ [-> _]]. reflexivity. }
  assert (Hp : forall cs : list (list ImportRecord),
             count is_print
                   (flat_map (fun chain => chain_lines chain ++ [new_line]) cs) = 0).
  { intros cs. rewrite count_flat_map.
    rewrite (list_sum_eq _ _ (fun _ => 0)); [now rewrite list_sum_const|].
    intros chain _. rewrite count_app.
    destruct (chain_lines_counts chain) as [_ [_ ->]]. reflexivity. }
  split; [exact H|]. rewrite H, !count_flat_map. split; [|split].
  - rewrite <- (Nat.mul_1_l (List.length (invalid_chains check))), <- list_sum_const.
    apply list_sum_eq. intros data _. rewrite !count_app, Hp. reflexivity.
  - apply list_sum_eq. intros data _. rewrite !count_app, Hpe. cbn. lia.
  - apply list_sum_eq. intros data _. rewrite !count_app, Hnl. cbn. lia.
Qed.

(** ** Popping the imports that leave a layer *)

Lemma dict_get_set {V : Type} (k k' : string) (v : V) (d : list (string * V)) :
  dict_get k' (dict_set k v d) = if String.eqb k k' then Some v else dict_get k' d.
Proof.
  induction d as [|[k0 v0] d IH]; cbn [dict_set dict_get].
  - reflexivity.
  - destruct (String.eqb_spec k0 k) as [->|Hne]; cbn [dict_get].
    + now destruct (String.eqb k k').
    + destruct (String.eqb_spec k0 k') as [->|Hne'].
      * destruct (String.eqb_spec k k'); [congruence | reflexivity].
      * exact IH.
Qed.

Lemma pop_outside_fold (layer_package : string) (names : list string)
      (g : ImportGraph) (d : list (string * list Provenance)) :
  let after :=
    fold_left
      (fun st module_name =>
         let '(graph, imports_by_layer) := st in
         let collected :=
           fold_left
             (fun acc imported_module =>
                if negb (is_descendant_of imported_module layer_package) then
                  let import_details :=
                    get_import_details graph module_name imported_module in
                  acc ++ import_details
                else acc)
             (find_modules_directly_imported_by graph module_name) [] in
         (remove_module module_name graph,
          dict_set module_name collected imports_by_layer))
      names (g, d) in
  fst after = fold_left (fun g0 m => remove_module m g0) names g
  /\ forall m, dict_get m (snd after) <> None <-> dict_get m d <> None \/ In m names.
Proof.
  cbv zeta. revert g d. induction names as [|n names IH]; intros g d.
  - cbn. split; [reflexivity|]. intros m. tauto.
  - cbn [fold_left]. match goal with |- context [dict_set n ?c d] => set (collected := c) end.
    destruct (IH (remove_module n g) (dict_set n collected d)) as [Hg Hd].
    split; [exact Hg|]. intros m. rewrite Hd, dict_get_set. cbn [In].
    destruct (String.eqb_spec n m) as [->|Hne].
    + split; [auto|]. intros _. left. discriminate.
    + tauto.
Qed.

(** X19.  [_pop_imports_outside_layer_by_module] takes exactly the listed
    modules out of the graph, with every import that touches them, and
    returns a dictionary whose keys are exactly the listed names. *)
Theorem pop_outside_removes_the_listed_modules
        (graph : ImportGraph) (layer_package : string) (module_names : list string) :
  let after :=
    LayersContract._pop_imports_outside_layer_by_module graph layer_package module_names in
  (forall m, In m (modules (fst after))
             <-> In m (modules graph) /\ ~ In m module_names)
  /\ (forall a b, has_import (fst after) a b = true
                  <-> has_import graph a b = true
                      /\ ~ In a module_names /\ ~ In b module_names)
  /\ (forall m, dict_get m (snd after) <> None <-> In m module_names).
Proof.
  pose proof (pop_outside_fold layer_package module_names graph []) as H.
  unfold LayersContract._pop_imports_outside_layer_by_module. cbv zeta in *.
  destruct H as [Hg Hd]. rewrite Hg. split; [|split].
  - intros m. apply modules_remove_modules.
  - intros a b. apply has_import_remove_modules.
  - intros m. rewrite Hd. cbn [dict_get]. tauto.
Qed.

(** ** Layer names *)

(** X20.  [LayerField.parse] loses nothing: two raw strings that parse to
    the same layer are the same string. *)
Theorem parse_is_injective (raw1 raw2 : string) :
  LayerField.parse raw1 = LayerField.parse raw2 -> raw1 = raw2.
Proof.
  unfold LayerField.parse.
  destruct (startswith raw1 "(" && endswith_char raw1 ")") eqn:E1;
    destruct (startswith raw2 "(" && endswith_char raw2 ")") eqn:E2;
    intros H; inversion H as [Hname].
  - apply andb_true_iff, wrapped_iff in E1. apply andb_true_iff, wrapped_iff in E2.
    destruct E1 as [i1 ->]. destruct E2 as [i2 ->].
    rewrite !slice_1_m1_wrapped in Hname. now subst.
  - reflexivity.
Qed.

Lemma parse_is_injective_witness : "(aux)" = "(aux)".
Proof. exact (parse_is_injective "(aux)" "(aux)" eq_refl). Defined.

(** ** [check] without containers, and with fewer than two layers *)

Lemma permutations_depend_on_nodes (self : LayersContract) (g1 g2 : ImportGraph) :
  nodes g1 = nodes g2 ->
  LayersContract._generate_module_permutations self g1
  = LayersContract._generate_module_permutations self g2.
Proof.
  intros H. unfold LayersContract._generate_module_permutations, modules.
  now rewrite H.
Qed.

Lemma permutations_short (self : LayersContract) (graph : ImportGraph) :
  List.length (layers self) < 2 ->
  LayersContract._generate_module_permutations self graph = [].
Proof.
  intros Hlen. rewrite permutations_by_index. unfold permutations_over_indices. cbv zeta.
  destruct (layers self) as [|l0 [|l1 ls]]; [| |simpl in Hlen; lia];
    induction (LayersContract.quasi_containers self) as [|c cs IH]; cbn; auto.
Qed.

Lemma permutations_need_layers (self : LayersContract) (graph : ImportGraph) :
  LayersContract._generate_module_permutations self graph <> [] -> layers self <> [].
Proof.
  intros H Hl. apply H. apply permutations_short. rewrite Hl. simpl. lia.
Qed.

(** X21.  Without containers [check] cannot get past its first pair: as
    soon as the enumerator yields a pair, [check] raises [TypeError] when
    no containers are configured, and [IndexError] when the list of
    containers is empty. *)
Theorem check_without_containers_raises (self : LayersContract) (graph : ImportGraph) :
  LayersContract._generate_module_permutations self graph <> [] ->
  (containers self = None -> snd (LayersContract.check self graph) = Raise TypeError)
  /\ (containers self = Some [] ->
      snd (LayersContract.check self graph) = Raise IndexError).
Proof.
  intros Hperm.
  pose proof (permutations_need_layers self graph Hperm) as Hlayers.
  assert (Hraise : forall e,
             LayersContract.containers_0 self = Raise e ->
             snd (LayersContract.check self graph) = Raise e).
  { intros e He. unfold LayersContract.check.
    pose proof (pop_imports_nodes (or_empty (ignore_imports self)) graph) as Hn.
    destruct (pop_imports graph (or_empty (ignore_imports self))) as [filtered removed].
    cbn [fst snd] in *.
    rewrite (permutations_depend_on_nodes self filtered graph Hn).
    destruct (LayersContract._generate_module_permutations self graph)
      as [|[higher lower] rest]; [contradiction|].
    cbn [for_each]. unfold LayersContract.prune.
    destruct (layers self) as [|l0 ls]; [contradiction|].
    cbn [for_each]. rewrite He. reflexivity. }
  split; intros Hc; apply Hraise; unfold LayersContract.containers_0; now rewrite Hc.
Qed.

Lemma check_without_containers_raises_witness :
  snd (LayersContract.check direct_violation_contract direct_violation_graph)
  = Raise TypeError.
Proof.
  assert (H : LayersContract._generate_module_permutations
                direct_violation_contract direct_violation_graph <> [])
    by (vm_compute; discriminate).
  exact (proj1 (check_without_containers_raises
                  direct_violation_contract direct_violation_graph H) eq_refl).
Defined.

(** X22.  A contract with fewer than two layers has nothing to check:
    [check] reports it kept without a chain, and so does [_alt_check]
    whenever its validation passes. *)
Theorem fewer_than_two_layers_is_kept (self : LayersContract) (graph : ImportGraph) :
  List.length (layers self) < 2 ->
  snd (LayersContract.check self graph) = Ok (mkCheck true [])
  /\ forall outcome,
      snd (LayersContract._alt_check self graph) = Ok outcome ->
      outcome = mkCheck true [].
Proof.
  intros Hlen. split.
  - unfold LayersContract.check.
    destruct (pop_imports graph (or_empty (ignore_imports self))) as [filtered removed].
    cbn [snd]. rewrite (permutations_short self filtered Hlen). reflexivity.
  - intros outcome H. destruct (alt_check_outcome self graph outcome H) as [_ ->].
    unfold pairs_with_chains. rewrite (permutations_short self _ Hlen). reflexivity.
Qed.

Lemma fewer_than_two_layers_is_kept_witness :
  snd (LayersContract.check (mkContract [mkLayer "high" false] None None ["high"])
                            direct_violation_graph)
  = Ok (mkCheck true []).
Proof.
  assert (H : List.length (layers (mkContract [mkLayer "high" false] None None ["high"]))
              < 2) by (simpl; lia).
  exact (proj1 (fewer_than_two_layers_is_kept
                  (mkContract [mkLayer "high" false] None None ["high"])
                  direct_violation_graph H)).
Defined.
